(** * Hypia: functional transforms on multi-band images

    A shallow embedding of [hypia/functionals.py].  Images are
    three-dimensional numpy arrays; the scipy / scikit-image primitives
    the module calls are taken as parameters, and every function of the
    module is transcribed statement by statement on top of them. *)

From Stdlib Require Import ZArith List Bool Lia String QArith Qround.
Import ListNotations.
Open Scope string_scope.
Open Scope Z_scope.

(** ** Exceptions *)

Inductive exn : Set :=
| IndexError
| AssertionError
| AttributeError
| UnboundLocalError
| TypeError
| ValueError
| AxisError
| LinAlgError
| RuntimeError.

Inductive result (A : Type) : Type :=
| Ok (a : A)
| Raise (e : exn).

Arguments Ok {A} a.
Arguments Raise {A} e.

Definition bind {A B : Type} (r : result A) (k : A -> result B) : result B :=
  match r with
  | Ok a => k a
  | Raise e => Raise e
  end.

Notation "x <- r ;; k" := (bind r (fun x => k))
  (at level 61, r at next level, right associativity).

Definition is_ok {A : Type} (r : result A) : bool :=
  match r with
  | Ok _ => true
  | Raise _ => false
  end.

(** ** Numbers

    Pixel samples and scale factors are numpy floats.  Their arithmetic
    is left abstract, up to two laws of floating-point arithmetic:
    subtracting zero and dividing by one are exact.  [of_Z] is the
    conversion of a Python int. *)

Class Number (F : Type) : Type := {
  of_Z : Z -> F;
  fadd : F -> F -> F;
  fsub : F -> F -> F;
  fmul : F -> F -> F;
  fdiv : F -> F -> F;
  fmax : F -> F -> F;
  half : F;
  fround : F -> F;
  ftrunc : F -> Z;
  fsub_0 : forall x : F, fsub x (of_Z 0) = x;
  fdiv_1 : forall x : F, fdiv x (of_Z 1) = x
}.

(** ** Three-dimensional arrays *)

Record ndarray (F : Type) : Type := mk_ndarray {
  shape0 : nat;
  shape1 : nat;
  shape2 : nat;
  item : nat -> nat -> nat -> F
}.

Arguments mk_ndarray {F} _ _ _ _.
Arguments shape0 {F} _.
Arguments shape1 {F} _.
Arguments shape2 {F} _.
Arguments item {F} _ _ _ _.

(** A 3x3 homogeneous matrix, row by row. *)
Definition row (F : Type) : Type := (F * F * F)%type.
Definition matrix (F : Type) : Type := (row F * row F * row F)%type.

(** ** The primitives of scipy.ndimage and skimage.transform *)

Class Library (F : Type) : Type := {
  gaussian_filter : ndarray F -> list F -> result (ndarray F);
  estimate : list (Z * Z) -> list (Z * Z) -> matrix F;
  AffineTransform :
    option (F * F) -> option F -> option F -> option (F * F) -> matrix F;
  inverse : matrix F -> result (matrix F);
  warp : ndarray F -> matrix F -> option (list Z) -> Z -> result (ndarray F);
  rad2deg : F -> F;
  ndi_rotate : ndarray F -> F -> bool -> Z -> result (ndarray F)
}.

(** ** numpy on three-dimensional arrays *)

Section Numpy.

Context {F : Type}.

Definition np_shape (a : ndarray F) : list Z :=
  [Z.of_nat (shape0 a); Z.of_nat (shape1 a); Z.of_nat (shape2 a)].

(** [a == b] reduced with [all()]: same shape and same samples. *)
Definition array_equal (a b : ndarray F) : Prop :=
  shape0 a = shape0 b /\ shape1 a = shape1 b /\ shape2 a = shape2 b /\
  forall i j k : nat,
    (i < shape0 a)%nat -> (j < shape1 a)%nat -> (k < shape2 a)%nat ->
    item a i j k = item b i j k.

Definition axis_len (a : ndarray F) (ax : nat) : nat :=
  match ax with
  | O => shape0 a
  | S O => shape1 a
  | _ => shape2 a
  end.

(** Among the indices [i0 i1 i2] of the transposed array, the one that
    runs along axis [m] of the original. *)
Definition pick (axes : list nat) (m : nat) (i0 i1 i2 : nat) : nat :=
  if Nat.eqb (nth 0 axes O) m then i0
  else if Nat.eqb (nth 1 axes O) m then i1
  else i2.

Definition transpose (a : ndarray F) (axes : list nat) : ndarray F :=
  mk_ndarray
    (axis_len a (nth 0 axes O))
    (axis_len a (nth 1 axes O))
    (axis_len a (nth 2 axes O))
    (fun i0 i1 i2 =>
       item a (pick axes 0 i0 i1 i2) (pick axes 1 i0 i1 i2) (pick axes 2 i0 i1 i2)).

Definition normalize_axis_index (axis ndim : Z) : result nat :=
  if (- ndim <=? axis) && (axis <? ndim)
  then Ok (Z.to_nat (if axis <? 0 then axis + ndim else axis))
  else Raise AxisError.

(** [list.insert] *)
Fixpoint insert_at {A : Type} (n : nat) (x : A) (l : list A) : list A :=
  match n, l with
  | O, _ => x :: l
  | S n', y :: l' => y :: insert_at n' x l'
  | S _, [] => [x]
  end.

(** The order of axes [np.moveaxis] hands to [transpose]. *)
Definition moveaxis_order (source destination : Z) : result (list nat) :=
  src <- normalize_axis_index source 3 ;;
  dst <- normalize_axis_index destination 3 ;;
  Ok (insert_at dst src (filter (fun n => negb (Nat.eqb n src)) [0; 1; 2]%nat)).

Definition moveaxis (a : ndarray F) (source destination : Z) : result (ndarray F) :=
  order <- moveaxis_order source destination ;;
  Ok (transpose a order).

(** [m[:, ::-1]] *)
Definition fliplr (m : ndarray F) : ndarray F :=
  mk_ndarray (shape0 m) (shape1 m) (shape2 m)
    (fun i j k => item m i (shape1 m - 1 - j)%nat k).

(** [m[::-1, ...]] *)
Definition flipud (m : ndarray F) : ndarray F :=
  mk_ndarray (shape0 m) (shape1 m) (shape2 m)
    (fun i j k => item m (shape0 m - 1 - i)%nat j k).

(** *** Basic slicing, step 1 *)

(** [start:stop] *)
Definition slice : Type := (Z * Z)%type.

(** Python's adjustment of one slice bound to an axis of length [n]:
    a negative bound counts from the end, then it is clamped to [0, n]. *)
Definition adjust_index (n : nat) (i : Z) : nat :=
  let i' := if i <? 0 then i + Z.of_nat n else i in
  Z.to_nat (Z.max 0 (Z.min i' (Z.of_nat n))).

Definition slice_start (n : nat) (s : slice) : nat := adjust_index n (fst s).
Definition slice_stop (n : nat) (s : slice) : nat := adjust_index n (snd s).
Definition slice_len (n : nat) (s : slice) : nat :=
  (slice_stop n s - slice_start n s)%nat.

Definition in_slice (n : nat) (s : slice) (i : nat) : bool :=
  Nat.leb (slice_start n s) i && Nat.ltb i (slice_stop n s).

(** [a[s0, s1]] *)
Definition getitem (a : ndarray F) (s0 s1 : slice) : ndarray F :=
  mk_ndarray (slice_len (shape0 a) s0) (slice_len (shape1 a) s1) (shape2 a)
    (fun i j k =>
       item a (slice_start (shape0 a) s0 + i)%nat (slice_start (shape1 a) s1 + j)%nat k).

(** [a[:, s1, s2]] *)
Definition getitem_tail (a : ndarray F) (s1 s2 : slice) : ndarray F :=
  mk_ndarray (shape0 a) (slice_len (shape1 a) s1) (slice_len (shape2 a) s2)
    (fun i j k =>
       item a i (slice_start (shape1 a) s1 + j)%nat (slice_start (shape2 a) s2 + k)%nat).

(** The array after [a[s0, s1] = val]. *)
Definition setitem (a : ndarray F) (s0 s1 : slice) (val : F) : ndarray F :=
  mk_ndarray (shape0 a) (shape1 a) (shape2 a)
    (fun i j k =>
       if in_slice (shape0 a) s0 i && in_slice (shape1 a) s1 j
       then val else item a i j k).

End Numpy.

(** *** Broadcasting against a scalar or a one-dimensional array *)

Inductive operand (F : Type) : Type :=
| Scalar (x : F)
| Vector (v : list F).

Arguments Scalar {F} x.
Arguments Vector {F} v.

Section Broadcast.

Context {F : Type} {num : Number F}.

(** The common length of two axes of lengths [n] and [m]. *)
Definition broadcast_len (n m : nat) : result nat :=
  if Nat.eqb n m then Ok n
  else if Nat.eqb m 1 then Ok n
  else if Nat.eqb n 1 then Ok m
  else Raise ValueError.

(** The index read on an axis of length [n] for output index [i]. *)
Definition bidx (n i : nat) : nat := if Nat.eqb n 1 then O else i.

Definition operand_at (b : operand F) (k : nat) : F :=
  match b with
  | Scalar x => x
  | Vector v => nth (bidx (List.length v) k) v (of_Z 0)
  end.

(** [a op b], [b] aligned with the last axis of [a]. *)
Definition np_binop (op : F -> F -> F) (a : ndarray F) (b : operand F)
  : result (ndarray F) :=
  match b with
  | Scalar x =>
      Ok (mk_ndarray (shape0 a) (shape1 a) (shape2 a)
            (fun i j k => op (item a i j k) x))
  | Vector v =>
      n <- broadcast_len (shape2 a) (List.length v) ;;
      Ok (mk_ndarray (shape0 a) (shape1 a) n
            (fun i j k => op (item a i j (bidx (shape2 a) k)) (operand_at b k)))
  end.

End Broadcast.

(** ** Arguments that Python dispatches on by type *)

(** The [size] argument of [resize]. *)
Inductive pysize (F : Type) : Type :=
| SizeInt (n : Z)
| SizeTuple (l : list Z)
| SizeList (l : list Z)
| SizeArray (l : list F).

Arguments SizeInt {F} n.
Arguments SizeTuple {F} l.
Arguments SizeList {F} l.
Arguments SizeArray {F} l.

(** The [scale] argument of [rescale]. *)
Inductive pyscale (F : Type) : Type :=
| ScaleFloat (x : F)
| ScaleInt (n : Z)
| ScaleTuple (l : list F)
| ScaleList (l : list F)
| ScaleArray (l : list F).

Arguments ScaleFloat {F} x.
Arguments ScaleInt {F} n.
Arguments ScaleTuple {F} l.
Arguments ScaleList {F} l.
Arguments ScaleArray {F} l.

(** What [scale * input_shape] evaluates to. *)
Inductive pyprod (F : Type) : Type :=
| ProdTuple (l : list Z)
| ProdArray (l : list F).

Arguments ProdTuple {F} l.
Arguments ProdArray {F} l.

(** ** hypia.functionals *)

Section Functionals.

Context {F : Type} {num : Number F} {lib : Library F}.

Definition is_first (channel_pos : string) : bool := String.eqb channel_pos "first".

(** [if channel_pos == "first": img = np.moveaxis(img, 0, -1)] *)
Definition to_canonical (channel_pos : string) (img : ndarray F) : result (ndarray F) :=
  if is_first channel_pos then moveaxis img 0 (-1) else Ok img.

(** [if channel_pos == "first": out = np.moveaxis(out, -1, 0)] *)
Definition from_canonical (channel_pos : string) (out : ndarray F) : result (ndarray F) :=
  if is_first channel_pos then moveaxis out (-1) 0 else Ok out.

Definition normalise (img : ndarray F) (mean std : operand F) : result (ndarray F) :=
  centred <- np_binop fsub img mean ;;
  np_binop fdiv centred std.

(** [seq[-1]] *)
Definition getitem_last (l : list Z) : Z := last l 0.

(** Lines 54-59 of [resize]: the [if]/[elif] chain that binds
    [output_shape].  [(tuple or list)] evaluates to [tuple]; the
    two-element branch reads [img.output_shape], which an ndarray does
    not have; when no branch is taken the name is still unbound at its
    first use. *)
Definition resize_output_shape (img : ndarray F) (size : pysize F) : result (list Z) :=
  match size with
  | SizeInt n => Ok [n; n; getitem_last (np_shape img)]
  | SizeTuple l =>
      if Nat.eqb (List.length l) 2 then Raise AttributeError
      else if Nat.eqb (List.length l) 3 then Ok l
      else Raise UnboundLocalError
  | SizeList _ => Raise UnboundLocalError
  | SizeArray _ => Raise UnboundLocalError
  end.

Definition assert (b : bool) : result unit :=
  if b then Ok tt else Raise AssertionError.

(** [factors[1] * (c + 0.5) - 0.5], stored into an integer array. *)
Definition corner_coord (factor : F) (c : Z) : Z :=
  ftrunc (fsub (fmul factor (fadd (of_Z c) half)) half).

(** Lines 71-83 of [resize]: the axis-aligned transform handed to [warp]. *)
Definition resize_tform (factors : list F) (output_shape : list Z) : matrix F :=
  let os0 := nth 0 output_shape 0 in
  let os1 := nth 1 output_shape 0 in
  let f0 := nth 0 factors (of_Z 0) in
  let f1 := nth 1 factors (of_Z 0) in
  let src_corners := [(0, 0); (0, os0 - 1); (os1 - 1, os0 - 1)] in
  let dst_corners :=
    map (fun c => (corner_coord f1 (fst c), corner_coord f0 (snd c))) src_corners in
  let '(r0, r1, _) := estimate src_corners dst_corners in
  let '(a00, _, a02) := r0 in
  let '(_, a11, a12) := r1 in
  ((a00, of_Z 0, a02), (of_Z 0, a11, a12), (of_Z 0, of_Z 0, of_Z 1)).

Definition resize (img : ndarray F) (size : pysize F) (interpolation_order : Z)
    (anti_aliasing : bool) (channel_pos : string) : result (ndarray F) :=
  img <- to_canonical channel_pos img ;;
  let input_shape := np_shape img in
  output_shape <- resize_output_shape img size ;;
  _ <- assert (getitem_last input_shape =? getitem_last output_shape) ;;
  let factors :=
    map (fun p => fdiv (of_Z (fst p)) (of_Z (snd p))) (combine input_shape output_shape) in
  img <- (if anti_aliasing
          then gaussian_filter img
                 (map (fun f => fmax (of_Z 0) (fdiv (fsub f (of_Z 1)) (of_Z 2))) factors)
          else Ok img) ;;
  let tform := resize_tform factors output_shape in
  out <- warp img tform (Some output_shape) interpolation_order ;;
  from_canonical channel_pos out.

(** [scale * input_shape], [input_shape] a tuple of ints. *)
Definition py_mul (scale : pyscale F) (input_shape : list Z) : result (pyprod F) :=
  match scale with
  | ScaleFloat _ => Raise TypeError
  | ScaleInt n => Ok (ProdTuple (List.concat (repeat input_shape (Z.to_nat n))))
  | ScaleTuple _ => Raise TypeError
  | ScaleList _ => Raise TypeError
  | ScaleArray v =>
      n <- broadcast_len (List.length v) (List.length input_shape) ;;
      Ok (ProdArray
            (map (fun k => fmul (nth (bidx (List.length v) k) v (of_Z 0))
                                (of_Z (nth (bidx (List.length input_shape) k) input_shape 0)))
                 (seq 0 n)))
  end.

Definition np_round (p : pyprod F) : pysize F :=
  match p with
  | ProdTuple l => SizeArray (map of_Z l)
  | ProdArray l => SizeArray (map fround l)
  end.

Definition rescale (img : ndarray F) (scale : pyscale F) (interpolation_order : Z)
    (anti_aliasing : bool) (channel_pos : string) : result (ndarray F) :=
  let input_shape :=
    if is_first channel_pos then skipn 1 (np_shape img) else firstn 2 (np_shape img) in
  prod <- py_mul scale input_shape ;;
  let size := np_round prod in
  resize img size interpolation_order anti_aliasing channel_pos.

Definition crop (img : ndarray F) (tl : Z * Z) (height width : Z) (channel_pos : string)
  : result (ndarray F) :=
  img <- to_canonical channel_pos img ;;
  if (fst tl + height >? Z.of_nat (shape0 img)) || (snd tl + width >? Z.of_nat (shape1 img))
  then Raise IndexError
  else
    let cropped := getitem img (fst tl, fst tl + height) (snd tl, snd tl + width) in
    from_canonical channel_pos cropped.

Definition hflip (img : ndarray F) (channel_pos : string) : result (ndarray F) :=
  img <- to_canonical channel_pos img ;;
  let flipped := fliplr img in
  from_canonical channel_pos flipped.

Definition vflip (img : ndarray F) (channel_pos : string) : result (ndarray F) :=
  img <- to_canonical channel_pos img ;;
  let flipped := flipud img in
  from_canonical channel_pos flipped.

Definition rotate (img : ndarray F) (angle : F) (reshape : bool) (interpolation_order : Z)
    (channel_pos : string) : result (ndarray F) :=
  img <- to_canonical channel_pos img ;;
  rotated <- ndi_rotate img (rad2deg angle) reshape interpolation_order ;;
  from_canonical channel_pos rotated.

Definition shear (img : ndarray F) (angle : F) (interpolation_order : Z)
    (channel_pos : string) : result (ndarray F) :=
  img <- to_canonical channel_pos img ;;
  let tform := AffineTransform None None (Some angle) None in
  inv <- inverse tform ;;
  sheared <- warp img inv None interpolation_order ;;
  from_canonical channel_pos sheared.

Definition affine_transform (img : ndarray F) (scales : option (F * F))
    (rotate : option F) (shear : option F) (translate : option (F * F))
    (interpolation_order : Z) (channel_pos : string) : result (ndarray F) :=
  img <- to_canonical channel_pos img ;;
  let tform := AffineTransform scales rotate shear translate in
  inv <- inverse tform ;;
  transformed <- warp img inv None interpolation_order ;;
  from_canonical channel_pos transformed.

(** [**resize_kwargs]: the keyword arguments [zoom] forwards to [resize];
    an absent keyword leaves [resize]'s default in force. *)
Record resize_kwargs : Type := mk_kwargs {
  kw_interpolation_order : option Z;
  kw_anti_aliasing : option bool
}.

Definition no_kwargs : resize_kwargs := mk_kwargs None None.

Definition default {A : Type} (o : option A) (d : A) : A :=
  match o with Some a => a | None => d end.

Definition zoom (img : ndarray F) (tl : Z * Z) (height width : Z) (channel_pos : string)
    (kw : resize_kwargs) : result (ndarray F) :=
  img <- to_canonical channel_pos img ;;
  zoomed <- crop img tl height width "last" ;;
  zoomed <- resize zoomed (SizeTuple (np_shape img))
              (default (kw_interpolation_order kw) 3)
              (default (kw_anti_aliasing kw) false) "last" ;;
  from_canonical channel_pos zoomed.

Definition stretch (img : ndarray F) (angle : F) (interpolation_order : Z)
    (anti_aliasing : bool) (channel_pos : string) : result (ndarray F) :=
  img <- to_canonical channel_pos img ;;
  stretched <- shear img angle interpolation_order "last" ;;
  stretched <- resize stretched (SizeTuple (np_shape img))
                 interpolation_order anti_aliasing "last" ;;
  from_canonical channel_pos stretched.

End Functionals.

(** ** Arrays as Python objects

    [np.moveaxis] and basic slicing return views: array objects that
    share the buffer of the array they were taken from.  A buffer lives
    at a location of the heap; an array object names its buffer and the
    order in which it reads the buffer's axes. *)

Definition loc : Set := nat.

Record pyarray : Set := mk_pyarray {
  base : loc;
  axes : list nat
}.

Fixpoint index_of (m : nat) (l : list nat) : nat :=
  match l with
  | [] => O
  | x :: l' => if Nat.eqb x m then O else S (index_of m l')
  end.

(** The inverse of a permutation of the three axes. *)
Definition argsort (axes : list nat) : list nat :=
  map (fun m => index_of m axes) [0; 1; 2]%nat.

Definition moveaxis_view (v : pyarray) (source destination : Z) : result pyarray :=
  order <- moveaxis_order source destination ;;
  Ok (mk_pyarray (base v) (map (fun n => nth n (axes v) O) order)).

Section Heap.

Context {F : Type}.

Definition heap : Type := loc -> ndarray F.

Definition store (h : heap) (l : loc) (a : ndarray F) : heap :=
  fun l' => if Nat.eqb l' l then a else h l'.

(** The array a Python object denotes in a heap. *)
Definition deref (h : heap) (v : pyarray) : ndarray F :=
  transpose (h (base v)) (axes v).

(** [v[s0, s1] = val]: the assignment writes through the view into its
    buffer. *)
Definition setitem_view (h : heap) (v : pyarray) (s0 s1 : slice) (val : F) : heap :=
  store h (base v) (transpose (setitem (deref h v) s0 s1 val) (argsort (axes v))).

(** Computations that read and write the heap and may raise. *)
Definition py (A : Type) : Type := heap -> result A * heap.

Definition py_lift {A : Type} (r : result A) : py A := fun h => (r, h).

Definition py_bind {A B : Type} (c : py A) (k : A -> py B) : py B :=
  fun h =>
    match c h with
    | (Ok a, h') => k a h'
    | (Raise e, h') => (Raise e, h')
    end.

Definition py_write (f : heap -> heap) : py unit := fun h => (Ok tt, f h).

Notation "x <~ c ;; k" := (py_bind c (fun x => k))
  (at level 61, c at next level, right associativity).

Definition erase (img : pyarray) (tl : Z * Z) (height width : Z) (val : F)
    (channel_pos : string) : py pyarray :=
  img <~ py_lift (if is_first channel_pos then moveaxis_view img 0 (-1) else Ok img) ;;
  _ <~ py_write (fun h =>
         setitem_view h img (fst tl, fst tl + height) (snd tl, snd tl + width) val) ;;
  img <~ py_lift (if is_first channel_pos then moveaxis_view img (-1) 0 else Ok img) ;;
  py_lift (Ok img).

(** What the caller of [erase] gets back when it passes a freshly
    allocated array holding [img]. *)
Definition erase_fresh (img : ndarray F) (tl : Z * Z) (height width : Z) (val : F)
    (channel_pos : string) : result (ndarray F) :=
  let h := fun _ : loc => img in
  let '(r, h') := erase (mk_pyarray O [0; 1; 2]%nat) tl height width val channel_pos h in
  out <- r ;;
  Ok (deref h' out).

End Heap.

(** ** The public operations that take [channel_pos] *)

Inductive operation (F : Type) : Type :=
| call_resize (size : pysize F) (interpolation_order : Z) (anti_aliasing : bool)
| call_rescale (scale : pyscale F) (interpolation_order : Z) (anti_aliasing : bool)
| call_crop (tl : Z * Z) (height width : Z)
| call_hflip
| call_vflip
| call_rotate (angle : F) (reshape : bool) (interpolation_order : Z)
| call_erase (tl : Z * Z) (height width : Z) (val : F)
| call_shear (angle : F) (interpolation_order : Z)
| call_affine_transform (scales : option (F * F)) (rotate : option F)
    (shear : option F) (translate : option (F * F)) (interpolation_order : Z)
| call_zoom (tl : Z * Z) (height width : Z) (kw : resize_kwargs)
| call_stretch (angle : F) (interpolation_order : Z) (anti_aliasing : bool).

Arguments call_resize {F} _ _ _.
Arguments call_rescale {F} _ _ _.
Arguments call_crop {F} _ _ _.
Arguments call_hflip {F}.
Arguments call_vflip {F}.
Arguments call_rotate {F} _ _ _.
Arguments call_erase {F} _ _ _ _.
Arguments call_shear {F} _ _.
Arguments call_affine_transform {F} _ _ _ _ _.
Arguments call_zoom {F} _ _ _ _.
Arguments call_stretch {F} _ _ _.

Section Run.

Context {F : Type} {num : Number F} {lib : Library F}.

Definition run (o : operation F) (channel_pos : string) (img : ndarray F)
  : result (ndarray F) :=
  match o with
  | call_resize size order aa => resize img size order aa channel_pos
  | call_rescale scale order aa => rescale img scale order aa channel_pos
  | call_crop tl height width => crop img tl height width channel_pos
  | call_hflip => hflip img channel_pos
  | call_vflip => vflip img channel_pos
  | call_rotate angle reshape order => rotate img angle reshape order channel_pos
  | call_erase tl height width val => erase_fresh img tl height width val channel_pos
  | call_shear angle order => shear img angle order channel_pos
  | call_affine_transform scales rot sh translate order =>
      affine_transform img scales rot sh translate order channel_pos
  | call_zoom tl height width kw => zoom img tl height width channel_pos kw
  | call_stretch angle order aa => stretch img angle order aa channel_pos
  end.

End Run.

(** ** Reading images and results

    The vocabulary in which the properties are stated. *)

Section Reading.

Context {F : Type} {num : Number F} {lib : Library F}.

(** The rows and columns of an image held in the given layout. *)
Definition rows (channel_pos : string) (img : ndarray F) : nat :=
  if is_first channel_pos then shape1 img else shape0 img.

Definition cols (channel_pos : string) (img : ndarray F) : nat :=
  if is_first channel_pos then shape2 img else shape1 img.

(** The sample of channel [c] at row [i] and column [j]. *)
Definition pixel (channel_pos : string) (a : ndarray F) (i j c : nat) : F :=
  if is_first channel_pos then item a c i j else item a i j c.

Definition channels (channel_pos : string) (a : ndarray F) : nat :=
  if is_first channel_pos then shape0 a else shape2 a.

(** A box that lies inside the image: its corner and its sizes are
    not negative and its bottom and right edges are not past the
    image. *)
Definition box_inside (channel_pos : string) (img : ndarray F) (tl : Z * Z)
    (height width : Z) : Prop :=
  0 <= fst tl /\ 0 <= snd tl /\ 0 <= height /\ 0 <= width /\
  fst tl + height <= Z.of_nat (rows channel_pos img) /\
  snd tl + width <= Z.of_nat (cols channel_pos img).

(** An operand that is a scalar, or a vector with one entry per index
    of the last axis of the image. *)
Definition fits (img : ndarray F) (b : operand F) : Prop :=
  match b with
  | Scalar _ => True
  | Vector v => List.length v = shape2 img
  end.

(** The entry of such an operand for index [k] of the last axis. *)
Definition band (b : operand F) (k : nat) : F :=
  match b with
  | Scalar x => x
  | Vector v => nth k v (of_Z 0)
  end.

(** The shape of an image read as (rows, columns, channels). *)
Definition canonical_shape (channel_pos : string) (img : ndarray F) : list Z :=
  if is_first channel_pos
  then [Z.of_nat (shape1 img); Z.of_nat (shape2 img); Z.of_nat (shape0 img)]
  else np_shape img.

(** In the words of the specification: [crop], then [resize] of the
    crop to [size], with the keyword arguments given to [zoom]. *)
Definition crop_then_resize (img : ndarray F) (tl : Z * Z) (height width : Z)
    (channel_pos : string) (kw : resize_kwargs) (size : pysize F) : result (ndarray F) :=
  cropped <- crop img tl height width channel_pos ;;
  resize cropped size
    (default (kw_interpolation_order kw) 3)
    (default (kw_anti_aliasing kw) false) channel_pos.

(** In the words of the specification: [shear], then [resize] of the
    sheared image to [size], with the same parameters. *)
Definition shear_then_resize (img : ndarray F) (angle : F) (interpolation_order : Z)
    (anti_aliasing : bool) (channel_pos : string) (size : pysize F) : result (ndarray F) :=
  sheared <- shear img angle interpolation_order channel_pos ;;
  resize sheared size interpolation_order anti_aliasing channel_pos.

(** The array objects considered: views that read the three axes of
    their buffer in some order. *)
Definition valid_view (v : pyarray) : Prop :=
  In (axes v)
    [[0; 1; 2]; [0; 2; 1]; [1; 0; 2]; [1; 2; 0]; [2; 0; 1]; [2; 1; 0]]%nat.

(** Whether the assignment of [erase] reaches sample (i, j, k) of an
    image held in the given layout: the two slices are taken on its
    rows and its columns. *)
Definition reached (channel_pos : string) (a : ndarray F) (tl : Z * Z) (height width : Z)
    (i j k : nat) : bool :=
  if is_first channel_pos
  then in_slice (shape1 a) (fst tl, fst tl + height) j &&
       in_slice (shape2 a) (snd tl, snd tl + width) k
  else in_slice (shape0 a) (fst tl, fst tl + height) i &&
       in_slice (shape1 a) (snd tl, snd tl + width) j.

End Reading.

(** ** An executable instance

    Exact rational arithmetic for the numbers and nearest-neighbour
    resampling for the library, so that the operations can be run on
    concrete images. *)

Module Exact.

Definition qmax (a b : Q) : Q := if Qle_bool a b then b else a.

(** Round half to even, as [np.round] does. *)
Definition qround (x : Q) : Q :=
  let f := Qfloor x in
  let d := (x - inject_Z f)%Q in
  if Qle_bool d (1 # 2)
  then if Qeq_bool d (1 # 2) then inject_Z (if Z.even f then f else f + 1) else inject_Z f
  else inject_Z (f + 1).

(** Truncation towards zero. *)
Definition qtrunc (x : Q) : Z := Z.quot (Qnum x) (Zpos (Qden x)).

Lemma Qminus_zero (x : Q) : (x - inject_Z 0)%Q = x.
Proof.
  destruct x as [n d]. unfold Qminus, Qplus, Qopp, inject_Z. cbn [Qnum Qden Z.opp].
  now rewrite Z.mul_1_r, Z.mul_0_l, Z.add_0_r, Pos.mul_1_r.
Qed.

Lemma Qdiv_one (x : Q) : (x / inject_Z 1)%Q = x.
Proof.
  destruct x as [n d]. unfold Qdiv, Qmult, Qinv, inject_Z. cbn [Qnum Qden].
  now rewrite Z.mul_1_r, Pos.mul_1_r.
Qed.

#[export] Instance Q_number : Number Q := {|
  of_Z := inject_Z;
  fadd := Qplus;
  fsub := Qminus;
  fmul := Qmult;
  fdiv := Qdiv;
  fmax := qmax;
  half := (1 # 2)%Q;
  fround := qround;
  ftrunc := qtrunc;
  fsub_0 := Qminus_zero;
  fdiv_1 := Qdiv_one
|}.

(** Sine and cosine by their first Taylor terms. *)
Definition qsin (x : Q) : Q := (x - x * x * x / 6)%Q.
Definition qcos (x : Q) : Q := (1 - x * x / 2)%Q.

Definition affine_matrix (scale : option (Q * Q)) (rotation shear : option Q)
    (translation : option (Q * Q)) : matrix Q :=
  let '(sx, sy) := default scale (1%Q, 1%Q) in
  let th := default rotation 0%Q in
  let be := default shear 0%Q in
  let '(tx, ty) := default translation (0%Q, 0%Q) in
  (((sx * qcos th)%Q, (- (sy * qsin (th + be)))%Q, tx),
   ((sx * qsin th)%Q, (sy * qcos (th + be))%Q, ty),
   (0%Q, 0%Q, 1%Q)).

Definition affine_inverse (m : matrix Q) : result (matrix Q) :=
  let '((a, b, tx), (c, d, ty), _) := m in
  let det := (a * d - b * c)%Q in
  if Qeq_bool det 0 then Raise LinAlgError
  else
    Ok (((d / det)%Q, (- b / det)%Q, ((b * ty - d * tx) / det)%Q),
        ((- c / det)%Q, (a / det)%Q, ((c * tx - a * ty) / det)%Q),
        (0%Q, 0%Q, 1%Q)).

(** The affine map through three point pairs laid out as a right angle:
    the first two differ in [y] only, the last two in [x] only. *)
Definition fit_affine (src dst : list (Z * Z)) : matrix Q :=
  let p := fun (l : list (Z * Z)) (n : nat) => nth n l (0, 0) in
  let qx := fun l n => inject_Z (fst (p l n)) in
  let qy := fun l n => inject_Z (snd (p l n)) in
  let dxs := (qx src 2%nat - qx src 1%nat)%Q in
  let dys := (qy src 1%nat - qy src 0%nat)%Q in
  let a00 := ((qx dst 2%nat - qx dst 1%nat) / dxs)%Q in
  let a10 := ((qy dst 2%nat - qy dst 1%nat) / dxs)%Q in
  let a01 := ((qx dst 1%nat - qx dst 0%nat) / dys)%Q in
  let a11 := ((qy dst 1%nat - qy dst 0%nat) / dys)%Q in
  ((a00, a01, (qx dst 0%nat - a00 * qx src 0%nat - a01 * qy src 0%nat)%Q),
   (a10, a11, (qy dst 0%nat - a10 * qx src 0%nat - a11 * qy src 0%nat)%Q),
   (0%Q, 0%Q, 1%Q)).

Definition nearest (x : Q) : Z := Qfloor (x + (1 # 2))%Q.

(** Every output pixel [(r, c)] reads the source pixel nearest to the
    image of [(x, y) = (c, r)] under the matrix; outside the source it
    is 0. *)
Definition warp_nearest (img : ndarray Q) (m : matrix Q) (output_shape : option (list Z))
    (order : Z) : result (ndarray Q) :=
  let shp := default output_shape (np_shape img) in
  if negb (Nat.eqb (List.length shp) 3) || existsb (fun n => n <? 0) shp
  then Raise ValueError
  else
    let '((a, b, tx), (c, d, ty), _) := m in
    Ok (mk_ndarray (Z.to_nat (nth 0 shp 0)) (Z.to_nat (nth 1 shp 0)) (Z.to_nat (nth 2 shp 0))
          (fun i j k =>
             let x := inject_Z (Z.of_nat j) in
             let y := inject_Z (Z.of_nat i) in
             let sx := nearest (a * x + b * y + tx)%Q in
             let sy := nearest (c * x + d * y + ty)%Q in
             if (0 <=? sx) && (sx <? Z.of_nat (shape1 img)) &&
                (0 <=? sy) && (sy <? Z.of_nat (shape0 img))
             then item img (Z.to_nat sy) (Z.to_nat sx) k
             else 0%Q)).

Definition deg2rad (x : Q) : Q := (x * (355 # 113) / 180)%Q.

(** Rotation about the centre of the first two axes, on the input's
    canvas. *)
Definition rotate_nearest (img : ndarray Q) (degrees : Q) (reshape : bool) (order : Z)
  : result (ndarray Q) :=
  let th := deg2rad degrees in
  let cx := ((inject_Z (Z.of_nat (shape1 img)) - 1) / 2)%Q in
  let cy := ((inject_Z (Z.of_nat (shape0 img)) - 1) / 2)%Q in
  let m :=
    (((qcos th), (- qsin th)%Q, (cx - qcos th * cx + qsin th * cy)%Q),
     ((qsin th), (qcos th), (cy - qsin th * cx - qcos th * cy)%Q),
     (0%Q, 0%Q, 1%Q)) in
  warp_nearest img m None order.

#[export] Instance nearest_library : Library Q := {|
  gaussian_filter := fun img _ => Ok img;
  estimate := fit_affine;
  AffineTransform := affine_matrix;
  inverse := affine_inverse;
  warp := warp_nearest;
  rad2deg := fun x => (x * 180 / (355 # 113))%Q;
  ndi_rotate := rotate_nearest
|}.

(** Test images: sample [(i, j, k)] holds [100 i + 10 j + k]. *)
Definition ramp (s0 s1 s2 : nat) : ndarray Q :=
  mk_ndarray s0 s1 s2
    (fun i j k => inject_Z (100 * Z.of_nat i + 10 * Z.of_nat j + Z.of_nat k)).

End Exact.

Import Exact.

(** ** hypia.transforms

    The configured operations of [hypia/transforms.py]: every class
    stores its parameters and its [__call__] hands them, with the image,
    to the function of [functionals].  A pipeline is run for the image
    it returns: every operation returns an array whose samples are
    computed from the samples of its argument at the time of the call,
    and each intermediate array is used once, so [Erase] is run through
    [erase_fresh]. *)

Module Transforms.

#[warnings="-register-all"]
Inductive transform (F : Type) : Type :=
| Compose (transforms : list (transform F))
| Normalise (mean std : operand F)
| Resize (size : pysize F) (interp : Z) (aa : bool) (cp : string)
| Rescale (scale : pyscale F) (interp : Z) (aa : bool) (cp : string)
| Crop (tl : Z * Z) (h w : Z) (cp : string)
| HorizontalFlip (cp : string)
| VerticalFlip (cp : string)
| Rotate (angle : F) (reshape : bool) (interp : Z) (cp : string)
| Erase (tl : Z * Z) (h w : Z) (v : F) (cp : string)
| Shear (angle : F) (interp : Z) (cp : string)
| AffineTransform (scales : option (F * F)) (rotate shear : option F)
    (translate : option (F * F)) (interp : Z) (cp : string)
| Zoom (tl : Z * Z) (h w : Z) (cp : string) (interp : Z) (aa : bool)
| Stretch (angle : F) (interp : Z) (aa : bool) (cp : string).

Arguments Compose {F} _.
Arguments Normalise {F} _ _.
Arguments Resize {F} _ _ _ _.
Arguments Rescale {F} _ _ _ _.
Arguments Crop {F} _ _ _ _.
Arguments HorizontalFlip {F} _.
Arguments VerticalFlip {F} _.
Arguments Rotate {F} _ _ _ _.
Arguments Erase {F} _ _ _ _ _.
Arguments Shear {F} _ _ _.
Arguments AffineTransform {F} _ _ _ _ _ _.
Arguments Zoom {F} _ _ _ _ _ _.
Arguments Stretch {F} _ _ _ _.

Section Call.

Context {F : Type} {num : Number F} {lib : Library F}.

(** [__call__].  [Zoom] passes the image and six more positional
    arguments to [zoom], which takes at most five positional arguments:
    the call raises [TypeError] before [zoom] runs. *)
Fixpoint call (t : transform F) (img : ndarray F) {struct t} : result (ndarray F) :=
  match t with
  | Compose transforms =>
      (fix loop (ts : list (transform F)) (img : ndarray F) {struct ts}
         : result (ndarray F) :=
         match ts with
         | [] => Ok img
         | t :: ts' => img <- call t img ;; loop ts' img
         end) transforms img
  | Normalise mean std => normalise img mean std
  | Resize size interp aa cp => resize img size interp aa cp
  | Rescale scale interp aa cp => rescale img scale interp aa cp
  | Crop tl h w cp => crop img tl h w cp
  | HorizontalFlip cp => hflip img cp
  | VerticalFlip cp => vflip img cp
  | Rotate angle reshape interp cp => rotate img angle reshape interp cp
  | Erase tl h w v cp => erase_fresh img tl h w v cp
  | Shear angle interp cp => shear img angle interp cp
  | AffineTransform scales rot sh translate interp cp =>
      affine_transform img scales rot sh translate interp cp
  | Zoom _ _ _ _ _ _ => Raise TypeError
  | Stretch angle interp aa cp => stretch img angle interp aa cp
  end.

(** The loop of [Compose.__call__]. *)
Fixpoint apply_all (ts : list (transform F)) (img : ndarray F) : result (ndarray F) :=
  match ts with
  | [] => Ok img
  | t :: ts' => img <- call t img ;; apply_all ts' img
  end.

End Call.

End Transforms.

(** ** What the library documents about shapes

    [warp] returns an array of the [output_shape] it is given, and of
    the shape of its input when it is given none; [ndimage.rotate]
    with [reshape=False] returns an array of the shape of its input. *)

Section Contracts.

Context {F : Type} {lib : Library F}.

Definition warp_honours_output_shape : Prop :=
  forall (img : ndarray F) (m : matrix F) (shp : list Z) (order : Z) (out : ndarray F),
    warp img m (Some shp) order = Ok out -> np_shape out = shp.

Definition warp_keeps_shape : Prop :=
  forall (img : ndarray F) (m : matrix F) (order : Z) (out : ndarray F),
    warp img m None order = Ok out -> np_shape out = np_shape img.

Definition rotate_keeps_shape : Prop :=
  forall (img : ndarray F) (angle : F) (order : Z) (out : ndarray F),
    ndi_rotate img angle false order = Ok out -> np_shape out = np_shape img.

End Contracts.

(** * Properties *)

(** ** Results and layout changes *)

Lemma bind_Ok {A B : Type} (a : A) (k : A -> result B) : bind (Ok a) k = k a.
Proof. reflexivity. Qed.

Lemma bind_Raise {A B : Type} (e : exn) (k : A -> result B) :
  bind (Raise e) k = Raise e.
Proof. reflexivity. Qed.

Lemma bind_assoc {A B C : Type} (r : result A) (f : A -> result B) (g : B -> result C) :
  bind (bind r f) g = bind r (fun a => bind (f a) g).
Proof. destruct r; reflexivity. Qed.

Lemma bind_ret {A : Type} (r : result A) : bind r Ok = r.
Proof. destruct r; reflexivity. Qed.

Section Layout.

Context {F : Type}.

Lemma moveaxis_first_to_last (a : ndarray F) :
  moveaxis a 0 (-1) = Ok (transpose a [1; 2; 0]%nat).
Proof. reflexivity. Qed.

Lemma moveaxis_last_to_first (a : ndarray F) :
  moveaxis a (-1) 0 = Ok (transpose a [2; 0; 1]%nat).
Proof. reflexivity. Qed.

Lemma transpose_there_and_back (a : ndarray F) :
  transpose (transpose a [2; 0; 1]%nat) [1; 2; 0]%nat = a.
Proof. destruct a; reflexivity. Qed.

Lemma transpose_back_and_there (a : ndarray F) :
  transpose (transpose a [1; 2; 0]%nat) [2; 0; 1]%nat = a.
Proof. destruct a; reflexivity. Qed.

(** The layout round trip of the specification: leaving the canonical
    layout and entering it again gives the array back, and conversely. *)
Lemma to_canonical_from_canonical (channel_pos : string) (a : ndarray F) :
  (x <- from_canonical channel_pos a ;; to_canonical channel_pos x) = Ok a.
Proof.
  unfold from_canonical, to_canonical.
  destruct (is_first channel_pos); [|reflexivity].
  rewrite moveaxis_last_to_first, bind_Ok, moveaxis_first_to_last.
  now rewrite transpose_there_and_back.
Qed.

Lemma from_canonical_to_canonical (channel_pos : string) (a : ndarray F) :
  (x <- to_canonical channel_pos a ;; from_canonical channel_pos x) = Ok a.
Proof.
  unfold from_canonical, to_canonical.
  destruct (is_first channel_pos); [|reflexivity].
  rewrite moveaxis_first_to_last, bind_Ok, moveaxis_last_to_first.
  now rewrite transpose_back_and_there.
Qed.

Lemma to_canonical_last (a : ndarray F) : to_canonical "last" a = Ok a.
Proof. reflexivity. Qed.

Lemma from_canonical_last (a : ndarray F) : from_canonical "last" a = Ok a.
Proof. reflexivity. Qed.

Lemma array_equal_refl (a : ndarray F) : array_equal a a.
Proof. unfold array_equal; auto. Qed.

End Layout.

Ltac layout :=
  repeat first
    [ rewrite moveaxis_first_to_last
    | rewrite moveaxis_last_to_first
    | rewrite bind_Ok
    | rewrite transpose_there_and_back
    | rewrite transpose_back_and_there ].

Lemma is_first_last : is_first "last" = false.
Proof. reflexivity. Qed.

(** Case analysis on the first computation of a sequence. *)
Ltac split_bind :=
  match goal with
  | |- context [bind ?r _] =>
      lazymatch r with
      | context [bind _ _] => fail
      | context [if ?b then _ else _] => destruct b
      | _ => destruct r
      end; cbn [bind]
  end.

Ltac shapes :=
  unfold np_shape;
  cbn [skipn firstn transpose shape0 shape1 shape2 axis_len nth item pick
       Nat.eqb fst snd].

(** ** Flips *)

Section Flips.

Context {F : Type}.

(** C9: flipping twice, horizontally or vertically, gives the image
    back, in either channel layout. *)
Theorem flips_are_involutions (img : ndarray F) (channel_pos : string) :
  (exists out, (x <- hflip img channel_pos ;; hflip x channel_pos) = Ok out
               /\ array_equal out img)
  /\
  (exists out, (x <- vflip img channel_pos ;; vflip x channel_pos) = Ok out
               /\ array_equal out img).
Proof.
  unfold hflip, vflip, to_canonical, from_canonical.
  destruct (is_first channel_pos); layout;
    (split; eexists; (split; [reflexivity|]));
    unfold array_equal; cbn; repeat split; intros; f_equal; lia.
Qed.

End Flips.

(** ** Slices *)

Lemma adjust_index_inside (n : nat) (i : Z) :
  0 <= i <= Z.of_nat n -> adjust_index n i = Z.to_nat i.
Proof.
  intros H. unfold adjust_index.
  destruct (Z.ltb_spec i 0); lia.
Qed.

Lemma adjust_index_le (n : nat) (i : Z) : (adjust_index n i <= n)%nat.
Proof.
  unfold adjust_index. destruct (Z.ltb_spec i 0); lia.
Qed.

(** From a non-negative start, a slice that runs past the end of the
    axis is cut at the end: index [i] of the axis lies in it exactly
    when it lies between the bounds as written. *)
Lemma in_slice_nonneg (n : nat) (start len : Z) (i : nat) :
  0 <= start -> 0 <= len -> (i < n)%nat ->
  in_slice n (start, start + len) i = true <->
  start <= Z.of_nat i < start + len.
Proof.
  intros Hs Hl Hi. unfold in_slice, slice_start, slice_stop, adjust_index. cbn [fst snd].
  rewrite andb_true_iff, Nat.leb_le, Nat.ltb_lt.
  destruct (Z.ltb_spec start 0); destruct (Z.ltb_spec (start + len) 0); lia.
Qed.

(** ** crop *)

Section Crop.

Context {F : Type}.

(** The test of [crop]: a box whose bottom or right edge lies past the
    image makes [crop] raise [IndexError], whatever the samples of the
    image are and in either layout; nothing is clamped. *)
Theorem crop_past_extent_raises (img : ndarray F) (tl : Z * Z) (height width : Z)
    (channel_pos : string) :
  fst tl + height > Z.of_nat (rows channel_pos img) \/
  snd tl + width > Z.of_nat (cols channel_pos img) ->
  crop img tl height width channel_pos = Raise IndexError.
Proof.
  unfold crop, rows, cols, to_canonical.
  destruct (is_first channel_pos); intros H; layout; cbn [transpose shape0 shape1 nth axis_len];
    match goal with
    | |- (if ?a || ?b then _ else _) = _ =>
        destruct (Z.gtb_spec (fst tl + height) (Z.of_nat (shape1 img)));
        destruct (Z.gtb_spec (fst tl + height) (Z.of_nat (shape0 img)));
        destruct (Z.gtb_spec (snd tl + width) (Z.of_nat (shape2 img)));
        destruct (Z.gtb_spec (snd tl + width) (Z.of_nat (shape1 img)))
    end; cbn [orb]; try reflexivity; lia.
Qed.

(** The test on the bottom and right edges is the only way [crop]
    raises: the corner itself is not tested, and a negative one is read
    by the slices as counted from the end of the axis. *)
Lemma crop_returns_iff (img : ndarray F) (tl : Z * Z) (height width : Z)
    (channel_pos : string) :
  is_ok (crop img tl height width channel_pos) = true <->
  fst tl + height <= Z.of_nat (rows channel_pos img) /\
  snd tl + width <= Z.of_nat (cols channel_pos img).
Proof.
  unfold crop, rows, cols, to_canonical, from_canonical.
  destruct (is_first channel_pos); layout; shapes;
    match goal with
    | |- context [if (?a >? ?b) || (?c >? ?d) then _ else _] =>
        destruct (Z.gtb_spec a b); destruct (Z.gtb_spec c d)
    end; cbn [orb is_ok]; layout; cbn [is_ok];
    split; intros Hc; try discriminate Hc; try reflexivity; lia.
Qed.

(** C4, amended: [crop] raises [IndexError] exactly when the bottom or
    the right edge of the box lies past the image
    ([tl[0] + height > rows] or [tl[1] + width > cols]), whatever the
    samples of the image are and in either layout, and it returns in
    every other case.  The top and the left edge are not tested: a box
    that extends past them is handed to the slices as it is. *)
Theorem crop_raises_iff_past_far_edge (img : ndarray F) (tl : Z * Z) (height width : Z)
    (channel_pos : string) :
  (crop img tl height width channel_pos = Raise IndexError <->
   fst tl + height > Z.of_nat (rows channel_pos img) \/
   snd tl + width > Z.of_nat (cols channel_pos img))
  /\
  (is_ok (crop img tl height width channel_pos) = true <->
   fst tl + height <= Z.of_nat (rows channel_pos img) /\
   snd tl + width <= Z.of_nat (cols channel_pos img)).
Proof.
  split; [split|apply crop_returns_iff].
  - intros Hraise.
    destruct (Z.le_gt_cases (fst tl + height) (Z.of_nat (rows channel_pos img))) as [Hr|Hr];
      [|left; lia].
    destruct (Z.le_gt_cases (snd tl + width) (Z.of_nat (cols channel_pos img))) as [Hc|Hc];
      [|right; lia].
    assert (Hok : is_ok (crop img tl height width channel_pos) = true)
      by (apply crop_returns_iff; split; assumption).
    rewrite Hraise in Hok. discriminate Hok.
  - apply crop_past_extent_raises.
Qed.

(** C5: a box inside the image is cut out exactly.  The result is the
    slice [img[:, top:top+height, left:left+width]] of a channel-first
    image, [img[top:top+height, left:left+width]] of a channel-last one;
    it has [height] rows, [width] columns and the channels of the
    image, and its pixel (i, j) is pixel (top + i, left + j) of the
    image. *)
Theorem crop_in_bounds (img : ndarray F) (top left height width : Z)
    (channel_pos : string) :
  0 <= top -> 0 <= left -> 0 <= height -> 0 <= width ->
  top + height <= Z.of_nat (rows channel_pos img) ->
  left + width <= Z.of_nat (cols channel_pos img) ->
  exists out,
    crop img (top, left) height width channel_pos = Ok out /\
    array_equal out
      (if is_first channel_pos
       then getitem_tail img (top, top + height) (left, left + width)
       else getitem img (top, top + height) (left, left + width)) /\
    rows channel_pos out = Z.to_nat height /\
    cols channel_pos out = Z.to_nat width /\
    channels channel_pos out = channels channel_pos img /\
    forall i j c : nat,
      pixel channel_pos out i j c =
      pixel channel_pos img (Z.to_nat top + i) (Z.to_nat left + j) c.
Proof.
  unfold crop, rows, cols, channels, pixel, to_canonical, from_canonical.
  intros Ht Hl Hh Hw Hr Hc.
  destruct (is_first channel_pos); layout;
    cbn [transpose shape0 shape1 shape2 nth axis_len fst snd];
    match goal with
    | |- context [if ?a || ?b then _ else _] =>
        replace (a || b) with false
          by (symmetry; apply orb_false_iff; split; rewrite Z.gtb_ltb; apply Z.ltb_ge; lia)
    end; layout;
    (eexists; split; [reflexivity|]);
    unfold array_equal, getitem, getitem_tail, slice_len, slice_start, slice_stop;
    cbn [transpose shape0 shape1 shape2 item nth axis_len fst snd pick Nat.eqb];
    rewrite !adjust_index_inside by lia;
    repeat split; intros; try reflexivity; lia.
Qed.

End Crop.

(** The example of the specification: a 5x5 box at (8, 8) in a 10x10
    image. *)
Lemma crop_past_extent_raises_witness :
  (fst (8, 8) + 5 > Z.of_nat (rows "first" (Exact.ramp 3 10 10)) \/
   snd (8, 8) + 5 > Z.of_nat (cols "first" (Exact.ramp 3 10 10))) /\
  crop (Exact.ramp 3 10 10) (8, 8) 5 5 "first" = Raise IndexError.
Proof.
  assert (H : fst (8, 8) + 5 > Z.of_nat (rows "first" (Exact.ramp 3 10 10)) \/
              snd (8, 8) + 5 > Z.of_nat (cols "first" (Exact.ramp 3 10 10))).
  { left. cbn. lia. }
  split; [exact H|].
  exact (crop_past_extent_raises (Exact.ramp 3 10 10) (8, 8) 5 5 "first" H).
Defined.

(** C4 as stated.  The box of corner (-1, 0), 3 rows high and 2
    columns wide, extends past the top edge of a 4x4 image: it is not
    inside the image, yet [crop] does not raise and hands back an image
    with no rows. *)
Lemma crop_past_top_edge_does_not_raise :
  ~ box_inside "first" (Exact.ramp 3 4 4) (- (1), 0) 3 2 /\
  exists out,
    crop (Exact.ramp 3 4 4) (- (1), 0) 3 2 "first" = Ok out /\
    np_shape out = [3; 0; 2].
Proof.
  split.
  - unfold box_inside. cbn. lia.
  - unfold crop, to_canonical, from_canonical. change (is_first "first") with true.
    cbv iota. layout.
    match goal with
    | |- context [if ?c then Raise IndexError else _] =>
        replace c with false by (vm_compute; reflexivity)
    end.
    layout. eexists; split; [reflexivity|]. vm_compute. reflexivity.
Qed.

(** The example of the specification: the 4x4 box at (2, 2) of a
    channel-first image of 3 channels and 10x10 pixels. *)
Lemma crop_in_bounds_witness :
  (0 <= 2 /\ 0 <= 4 /\
   2 + 4 <= Z.of_nat (rows "first" (Exact.ramp 3 10 10)) /\
   2 + 4 <= Z.of_nat (cols "first" (Exact.ramp 3 10 10))) /\
  exists out,
    crop (Exact.ramp 3 10 10) (2, 2) 4 4 "first" = Ok out /\
    array_equal out (getitem_tail (Exact.ramp 3 10 10) (2, 6) (2, 6)) /\
    rows "first" out = 4%nat /\
    cols "first" out = 4%nat /\
    channels "first" out = 3%nat /\
    forall i j c : nat,
      pixel "first" out i j c = pixel "first" (Exact.ramp 3 10 10) (2 + i) (2 + j) c.
Proof.
  split; [cbn; lia|].
  apply (crop_in_bounds (Exact.ramp 3 10 10) 2 2 4 4 "first"); cbn; lia.
Defined.

(** ** normalise *)

Section Normalise.

Context {F : Type} {num : Number F}.

Lemma broadcast_len_same (n : nat) : broadcast_len n n = Ok n.
Proof. unfold broadcast_len. now rewrite Nat.eqb_refl. Qed.

Lemma bidx_inside (n k : nat) : (k < n)%nat -> bidx n k = k.
Proof.
  unfold bidx. destruct (Nat.eqb_spec n 1); [lia|reflexivity].
Qed.

(** Whatever the operands broadcast to, sample (i, j, k) of the result
    is computed from sample (i, j, k) of the image, or from its only
    sample (i, j, 0) when the last axis of the image has length 1 and is
    stretched: no axis changes place. *)
Lemma normalise_sample (img : ndarray F) (mean std : operand F) (out : ndarray F) :
  normalise img mean std = Ok out ->
  shape0 out = shape0 img /\ shape1 out = shape1 img /\
  forall i j k : nat,
    (k < shape2 out)%nat ->
    item out i j k =
    fdiv (fsub (item img i j (bidx (shape2 img) k)) (operand_at mean k)) (operand_at std k).
Proof.
  unfold normalise, np_binop, broadcast_len, operand_at, bidx.
  destruct mean as [m|vm], std as [s|vs]; cbn [bind shape0 shape1 shape2 item];
    repeat match goal with
           | |- context [Nat.eqb ?a ?b] => destruct (Nat.eqb_spec a b); cbn [bind shape2]
           end;
    intros H; inversion H; subst; clear H; cbn [shape0 shape1 shape2 item];
    repeat split; intros; try reflexivity; try lia;
    try (replace k with O by lia; reflexivity); try congruence; lia.
Qed.


End Normalise.


(** ** The channel layout *)

Section LayoutInvariant.

Context {F : Type} {num : Number F} {lib : Library F}.


End LayoutInvariant.

(** ** zoom and stretch as compositions *)

Section Compositions.

Context {F : Type} {num : Number F} {lib : Library F}.

(** C6, amended: [zoom] is [crop] followed by [resize] of the crop to
    the shape of the original image written as (rows, columns,
    channels), the order in which [resize] reads its [size]; for a
    channel-last image that is [img.shape].  The two agree on every
    image, every box (also when [crop] raises), every layout and every
    choice of keyword arguments, the defaults included. *)
Theorem zoom_is_crop_then_resize (img : ndarray F) (tl : Z * Z) (height width : Z)
    (channel_pos : string) (kw : resize_kwargs) :
  zoom img tl height width channel_pos kw =
  crop_then_resize img tl height width channel_pos kw
    (SizeTuple (canonical_shape channel_pos img)).
Proof.
  unfold zoom, crop_then_resize, canonical_shape, crop, resize, to_canonical, from_canonical.
  destruct (is_first channel_pos) eqn:E; rewrite ?is_first_last; layout; shapes;
    match goal with
    | |- context [if ?c then Raise IndexError else _] => destruct c
    end; cbn [bind]; try reflexivity; layout; shapes;
    repeat split_bind; reflexivity.
Qed.

(** C7, amended: [stretch] is [shear] followed by [resize] of the
    sheared image to the shape of the original image written as (rows,
    columns, channels), with the same interpolation order and
    anti-aliasing; for a channel-last image that is [img.shape]. *)
Theorem stretch_is_shear_then_resize (img : ndarray F) (angle : F)
    (interpolation_order : Z) (anti_aliasing : bool) (channel_pos : string) :
  stretch img angle interpolation_order anti_aliasing channel_pos =
  shear_then_resize img angle interpolation_order anti_aliasing channel_pos
    (SizeTuple (canonical_shape channel_pos img)).
Proof.
  unfold stretch, shear_then_resize, canonical_shape, shear, resize,
    to_canonical, from_canonical.
  destruct (is_first channel_pos) eqn:E; rewrite ?is_first_last; layout; shapes;
    destruct (inverse (AffineTransform None None (Some angle) None)) as [inv|e];
    cbn [bind]; try reflexivity;
    match goal with
    | |- context [warp ?a ?m None ?o] => destruct (warp a m None o) as [sheared|e]
    end; cbn [bind]; try reflexivity; layout; shapes;
    repeat split_bind; reflexivity.
Qed.

End Compositions.

(** C6 as stated, with [img.shape] for the size.  The shape of a
    channel-first image as it stands is (channels, rows, columns);
    [resize] takes the columns for the channel count and its assertion
    fails, while [zoom] succeeds: here on one channel of 2x2 pixels. *)
Lemma zoom_is_not_crop_then_resize_to_img_shape :
  crop_then_resize (ramp 1 2 2) (0, 0) 2 2 "first" no_kwargs
    (SizeTuple (np_shape (ramp 1 2 2))) = Raise AssertionError
  /\
  zoom (ramp 1 2 2) (0, 0) 2 2 "first" no_kwargs <>
  crop_then_resize (ramp 1 2 2) (0, 0) 2 2 "first" no_kwargs
    (SizeTuple (np_shape (ramp 1 2 2))).
Proof.
  split.
  - vm_compute. reflexivity.
  - intros H. apply (f_equal is_ok) in H. vm_compute in H. discriminate H.
Qed.

(** C7 as stated, with [img.shape] for the size: the same failure of
    the assertion of [resize], while [stretch] succeeds; here on one
    channel of 3x3 pixels and a shear of angle 0. *)
Lemma stretch_is_not_shear_then_resize_to_img_shape :
  shear_then_resize (ramp 1 3 3) 0%Q 3 false "first"
    (SizeTuple (np_shape (ramp 1 3 3))) = Raise AssertionError
  /\
  stretch (ramp 1 3 3) 0%Q 3 false "first" <>
  shear_then_resize (ramp 1 3 3) 0%Q 3 false "first"
    (SizeTuple (np_shape (ramp 1 3 3))).
Proof.
  split.
  - vm_compute. reflexivity.
  - intros H. apply (f_equal is_ok) in H. vm_compute in H. discriminate H.
Qed.

(** ** resize and rescale: the [size] argument *)

Section Resize.

Context {F : Type} {num : Number F} {lib : Library F}.

(** An int gives a square output with the channels of the image, and a
    tuple of three is taken as it is. *)
Lemma output_shape_int (img : ndarray F) (n : Z) :
  resize_output_shape img (SizeInt n) = Ok [n; n; Z.of_nat (shape2 img)].
Proof. reflexivity. Qed.

Lemma output_shape_triple (img : ndarray F) (a b c : Z) :
  resize_output_shape img (SizeTuple [a; b; c]) = Ok [a; b; c].
Proof. reflexivity. Qed.

Lemma to_canonical_total (channel_pos : string) (img : ndarray F) :
  exists c, to_canonical channel_pos img = Ok c.
Proof.
  unfold to_canonical. destruct (is_first channel_pos); layout; eauto.
Qed.

(** C2: the sizes of two elements and the lists.  A tuple of two makes
    [resize] raise [AttributeError] (the branch reads
    [img.output_shape]); a list of any length matches no branch of the
    chain, so [resize] raises [UnboundLocalError] at the first use of
    [output_shape]. *)
Theorem resize_pair_and_list_sizes_raise (img : ndarray F) (interpolation_order : Z)
    (anti_aliasing : bool) (channel_pos : string) :
  (forall a b : Z,
     resize img (SizeTuple [a; b]) interpolation_order anti_aliasing channel_pos =
     Raise AttributeError)
  /\
  (forall l : list Z,
     resize img (SizeList l) interpolation_order anti_aliasing channel_pos =
     Raise UnboundLocalError).
Proof.
  unfold resize.
  destruct (to_canonical_total channel_pos img) as [c ->].
  split; intros; reflexivity.
Qed.

(** An array is no better a [size] than a list. *)
Lemma resize_array_size_raises (img : ndarray F) (l : list F) (interpolation_order : Z)
    (anti_aliasing : bool) (channel_pos : string) :
  resize img (SizeArray l) interpolation_order anti_aliasing channel_pos =
  Raise UnboundLocalError.
Proof.
  unfold resize.
  destruct (to_canonical_total channel_pos img) as [c ->].
  reflexivity.
Qed.

(** C3: [rescale] on the scales its documentation allows.  A float, a
    tuple or a list multiplied with the tuple [input_shape] raises
    [TypeError], so no size is computed and [resize] is not reached;
    and whatever the scale, [rescale] never returns an image, since the
    array that [np.round] returns is not a [size] that [resize]
    accepts. *)
Theorem rescale_raises (img : ndarray F) (interpolation_order : Z)
    (anti_aliasing : bool) (channel_pos : string) :
  (forall x : F,
     rescale img (ScaleFloat x) interpolation_order anti_aliasing channel_pos =
     Raise TypeError)
  /\
  (forall l : list F,
     rescale img (ScaleTuple l) interpolation_order anti_aliasing channel_pos =
     Raise TypeError)
  /\
  (forall l : list F,
     rescale img (ScaleList l) interpolation_order anti_aliasing channel_pos =
     Raise TypeError)
  /\
  (forall scale : pyscale F,
     is_ok (rescale img scale interpolation_order anti_aliasing channel_pos) = false).
Proof.
  repeat split; try reflexivity.
  intros scale. unfold rescale.
  destruct scale; cbn [py_mul bind np_round is_ok]; try reflexivity.
  - now rewrite resize_array_size_raises.
  - destruct (broadcast_len _ _); cbn [bind np_round]; [|reflexivity].
    now rewrite resize_array_size_raises.
Qed.

End Resize.

(** ** erase *)

Lemma moveaxis_order_first_to_last : moveaxis_order 0 (-1) = Ok [1; 2; 0]%nat.
Proof. reflexivity. Qed.

Lemma moveaxis_order_last_to_first : moveaxis_order (-1) 0 = Ok [2; 0; 1]%nat.
Proof. reflexivity. Qed.

Section Erase.

Context {F : Type}.

Lemma in_slice_nonneg_bool (n : nat) (start len : Z) (i : nat) :
  0 <= start -> 0 <= len -> (i < n)%nat ->
  in_slice n (start, start + len) i =
  (start <=? Z.of_nat i) && (Z.of_nat i <? start + len).
Proof.
  intros Hs Hl Hi.
  apply eq_true_iff_eq.
  rewrite (in_slice_nonneg n start len i Hs Hl Hi), andb_true_iff, Z.leb_le, Z.ltb_lt.
  reflexivity.
Qed.

(** C10: [erase] never raises, whatever the box; it returns the array
    object it was given and changes no other buffer; through that
    object the image has its shape unchanged and every sample reached
    by the two slices holds [val], every other sample its old value.
    For a box given by a non-negative corner and non-negative sizes,
    the pixel at row [i] and column [j] of the image is overwritten
    exactly when [tl[0] <= i < tl[0] + height] and
    [tl[1] <= j < tl[1] + width]: the part of the box that lies outside
    the image is dropped without an error. *)
Theorem erase_overwrites_in_place (h : heap) (img : pyarray) (tl : Z * Z)
    (height width : Z) (val : F) (channel_pos : string) :
  valid_view img ->
  fst (erase img tl height width val channel_pos h) = Ok img
  /\
  (forall l : loc,
     l <> base img -> snd (erase img tl height width val channel_pos h) l = h l)
  /\
  shape0 (deref (snd (erase img tl height width val channel_pos h)) img) =
    shape0 (deref h img)
  /\
  shape1 (deref (snd (erase img tl height width val channel_pos h)) img) =
    shape1 (deref h img)
  /\
  shape2 (deref (snd (erase img tl height width val channel_pos h)) img) =
    shape2 (deref h img)
  /\
  (forall i j k : nat,
     item (deref (snd (erase img tl height width val channel_pos h)) img) i j k =
     if reached channel_pos (deref h img) tl height width i j k
     then val else item (deref h img) i j k)
  /\
  (0 <= fst tl -> 0 <= snd tl -> 0 <= height -> 0 <= width ->
   forall i j c : nat,
     (i < rows channel_pos (deref h img))%nat ->
     (j < cols channel_pos (deref h img))%nat ->
     pixel channel_pos (deref (snd (erase img tl height width val channel_pos h)) img) i j c =
     if (fst tl <=? Z.of_nat i) && (Z.of_nat i <? fst tl + height) &&
        ((snd tl <=? Z.of_nat j) && (Z.of_nat j <? snd tl + width))
     then val else pixel channel_pos (deref h img) i j c).
Proof.
  intros Hv.
  assert (Hitem :
    fst (erase img tl height width val channel_pos h) = Ok img /\
    (forall l : loc,
       l <> base img -> snd (erase img tl height width val channel_pos h) l = h l) /\
    shape0 (deref (snd (erase img tl height width val channel_pos h)) img) =
      shape0 (deref h img) /\
    shape1 (deref (snd (erase img tl height width val channel_pos h)) img) =
      shape1 (deref h img) /\
    shape2 (deref (snd (erase img tl height width val channel_pos h)) img) =
      shape2 (deref h img) /\
    (forall i j k : nat,
       item (deref (snd (erase img tl height width val channel_pos h)) img) i j k =
       if reached channel_pos (deref h img) tl height width i j k
       then val else item (deref h img) i j k)).
  { destruct img as [b p]. unfold valid_view in Hv. cbn [axes In] in Hv.
    unfold erase, reached, py_bind, py_lift, py_write, moveaxis_view.
    destruct (is_first channel_pos);
      rewrite ?moveaxis_order_first_to_last, ?moveaxis_order_last_to_first;
      cbn [bind fst snd base axes];
      repeat destruct Hv as [Hv|Hv]; try contradiction; subst p;
      cbn [map nth bind fst snd base axes];
      unfold setitem_view, deref, store;
      cbn [base axes]; rewrite Nat.eqb_refl;
      repeat split; intros; try reflexivity;
      match goal with
      | Hl : ?l <> b |- _ =>
          destruct (Nat.eqb_spec l b); [contradiction|reflexivity]
      end. }
  destruct Hitem as (Hr & Hframe & H0 & H1 & H2 & Hitem).
  repeat (split; [assumption|]).
  intros Ht0 Ht1 Hh Hw i j c Hi Hj.
  unfold pixel, rows, cols, reached in *.
  rewrite !Hitem.
  destruct (is_first channel_pos);
    now rewrite !in_slice_nonneg_bool by assumption.
Qed.

End Erase.

(** A 5x5 box at (1, 1) in two channels of 3x3 pixels, held in a
    freshly allocated buffer. *)
Lemma erase_overwrites_in_place_witness :
  valid_view (mk_pyarray O [0; 1; 2]%nat) /\
  fst (erase (mk_pyarray O [0; 1; 2]%nat) (1, 1) 5 5 7%Q "first" (fun _ => ramp 2 3 3)) =
    Ok (mk_pyarray O [0; 1; 2]%nat).
Proof.
  assert (Hv : valid_view (mk_pyarray O [0; 1; 2]%nat)) by (left; reflexivity).
  split; [exact Hv|].
  exact (proj1 (erase_overwrites_in_place (fun _ => ramp 2 3 3)
                  (mk_pyarray O [0; 1; 2]%nat) (1, 1) 5 5 7%Q "first" Hv)).
Defined.

(** * Further properties *)

(** Case analysis on the sign tests of the slice bounds. *)
Ltac slices :=
  unfold slice_len, slice_start, slice_stop, adjust_index; cbn [fst snd];
  repeat match goal with
         | |- context [?a <? 0] => destruct (Z.ltb_spec a 0)
         end.

(** ** The layout change *)

Section MoreLayout.

Context {F : Type}.

(** Moving the channels to the last axis and back, or to the first axis
    and back, gives the array itself, whatever [channel_pos] is. *)
Theorem layout_round_trip (channel_pos : string) (img : ndarray F) :
  (c <- to_canonical channel_pos img ;; from_canonical channel_pos c) = Ok img /\
  (c <- from_canonical channel_pos img ;; to_canonical channel_pos c) = Ok img.
Proof.
  unfold to_canonical, from_canonical.
  destruct (is_first channel_pos); layout; split; reflexivity.
Qed.

End MoreLayout.

(** ** More on the flips *)

Section MoreFlips.

Context {F : Type}.

(** [hflip] keeps the shape and exchanges column [j] with column
    [cols - 1 - j] in every row and channel, in either layout. *)
Theorem hflip_mirrors_columns (img : ndarray F) (channel_pos : string) :
  exists out,
    hflip img channel_pos = Ok out /\
    rows channel_pos out = rows channel_pos img /\
    cols channel_pos out = cols channel_pos img /\
    channels channel_pos out = channels channel_pos img /\
    forall i j c : nat,
      (j < cols channel_pos img)%nat ->
      pixel channel_pos out i j c =
      pixel channel_pos img i (cols channel_pos img - 1 - j) c.
Proof.
  unfold hflip, rows, cols, channels, pixel, to_canonical, from_canonical.
  destruct (is_first channel_pos); layout;
    (eexists; split; [reflexivity|]); repeat split.
Qed.

(** [vflip] keeps the shape and exchanges row [i] with row
    [rows - 1 - i] in every column and channel, in either layout. *)
Theorem vflip_mirrors_rows (img : ndarray F) (channel_pos : string) :
  exists out,
    vflip img channel_pos = Ok out /\
    rows channel_pos out = rows channel_pos img /\
    cols channel_pos out = cols channel_pos img /\
    channels channel_pos out = channels channel_pos img /\
    forall i j c : nat,
      (i < rows channel_pos img)%nat ->
      pixel channel_pos out i j c =
      pixel channel_pos img (rows channel_pos img - 1 - i) j c.
Proof.
  unfold vflip, rows, cols, channels, pixel, to_canonical, from_canonical.
  destruct (is_first channel_pos); layout;
    (eexists; split; [reflexivity|]); repeat split.
Qed.

(** The two flips commute, and together they turn the image by half a
    turn: pixel (i, j) of the result is pixel (rows - 1 - i,
    cols - 1 - j) of the image. *)
Theorem flips_commute (img : ndarray F) (channel_pos : string) :
  exists out,
    (x <- hflip img channel_pos ;; vflip x channel_pos) = Ok out /\
    (x <- vflip img channel_pos ;; hflip x channel_pos) = Ok out /\
    forall i j c : nat,
      pixel channel_pos out i j c =
      pixel channel_pos img
        (rows channel_pos img - 1 - i) (cols channel_pos img - 1 - j) c.
Proof.
  unfold hflip, vflip, rows, cols, pixel, to_canonical, from_canonical.
  destruct (is_first channel_pos); layout;
    (eexists; split; [reflexivity|]); split; intros; reflexivity.
Qed.

End MoreFlips.

(** ** More on crop *)

Section MoreCrop.

Context {F : Type}.

(** When the test on the far edges passes, [crop] is the slice of the
    channels-last image, moved back. *)
Lemma crop_passes (img : ndarray F) (tl : Z * Z) (height width : Z)
    (channel_pos : string) :
  fst tl + height <= Z.of_nat (rows channel_pos img) ->
  snd tl + width <= Z.of_nat (cols channel_pos img) ->
  crop img tl height width channel_pos =
  (c <- to_canonical channel_pos img ;;
   from_canonical channel_pos
     (getitem c (fst tl, fst tl + height) (snd tl, snd tl + width))).
Proof.
  unfold crop, rows, cols, to_canonical.
  destruct (is_first channel_pos); intros Hr Hc; layout; shapes;
    match goal with
    | |- context [if (?a >? ?b) || (?c >? ?d) then _ else _] =>
        destruct (Z.gtb_spec a b); destruct (Z.gtb_spec c d)
    end; cbn [orb]; try reflexivity; lia.
Qed.

(** The box that covers the image returns the image. *)
Theorem crop_whole_image (img : ndarray F) (channel_pos : string) :
  exists out,
    crop img (0, 0) (Z.of_nat (rows channel_pos img)) (Z.of_nat (cols channel_pos img))
      channel_pos = Ok out /\
    array_equal out img.
Proof.
  rewrite crop_passes by (cbn [fst snd]; lia).
  unfold rows, cols, to_canonical, from_canonical.
  destruct (is_first channel_pos); layout;
    (eexists; split; [reflexivity|]);
    unfold array_equal, getitem; shapes; cbn [Z.add];
    repeat split; intros; try (slices; lia);
    f_equal; slices; lia.
Qed.

(** Slices that lie inside the axis keep their bounds. *)
Lemma slice_start_inside (n : nat) (start len : Z) :
  0 <= start -> 0 <= len -> start + len <= Z.of_nat n ->
  slice_start n (start, start + len) = Z.to_nat start.
Proof. intros. slices; lia. Qed.

Lemma slice_len_inside (n : nat) (start len : Z) :
  0 <= start -> 0 <= len -> start + len <= Z.of_nat n ->
  slice_len n (start, start + len) = Z.to_nat len.
Proof. intros. slices; lia. Qed.

Lemma getitem_getitem (a : ndarray F) (t1 l1 h1 w1 t2 l2 h2 w2 : Z) :
  0 <= t1 -> 0 <= l1 -> 0 <= t2 -> 0 <= l2 -> 0 <= h2 -> 0 <= w2 ->
  t1 + h1 <= Z.of_nat (shape0 a) -> l1 + w1 <= Z.of_nat (shape1 a) ->
  t2 + h2 <= h1 -> l2 + w2 <= w1 ->
  array_equal
    (getitem (getitem a (t1, t1 + h1) (l1, l1 + w1)) (t2, t2 + h2) (l2, l2 + w2))
    (getitem a (t1 + t2, t1 + t2 + h2) (l1 + l2, l1 + l2 + w2)).
Proof.
  intros Ht1 Hl1 Ht2 Hl2 Hh2 Hw2 Hr Hc Hh Hw.
  unfold array_equal, getitem; cbn [shape0 shape1 shape2 item].
  rewrite (slice_len_inside (shape0 a) t1 h1) by lia.
  rewrite (slice_len_inside (shape1 a) l1 w1) by lia.
  rewrite (slice_start_inside (shape0 a) t1 h1) by lia.
  rewrite (slice_start_inside (shape1 a) l1 w1) by lia.
  rewrite (slice_len_inside (Z.to_nat h1) t2 h2) by lia.
  rewrite (slice_len_inside (Z.to_nat w1) l2 w2) by lia.
  rewrite (slice_start_inside (Z.to_nat h1) t2 h2) by lia.
  rewrite (slice_start_inside (Z.to_nat w1) l2 w2) by lia.
  rewrite (slice_len_inside (shape0 a) (t1 + t2) h2) by lia.
  rewrite (slice_len_inside (shape1 a) (l1 + l2) w2) by lia.
  rewrite (slice_start_inside (shape0 a) (t1 + t2) h2) by lia.
  rewrite (slice_start_inside (shape1 a) (l1 + l2) w2) by lia.
  repeat split; intros; f_equal; lia.
Qed.

Lemma array_equal_to_first (a b : ndarray F) :
  array_equal a b ->
  array_equal (transpose a [2; 0; 1]%nat) (transpose b [2; 0; 1]%nat).
Proof.
  unfold array_equal; cbn [transpose shape0 shape1 shape2 item nth axis_len pick Nat.eqb].
  intros (H0 & H1 & H2 & H). repeat split; auto.
Qed.

(** A crop of a crop is one crop, the corners added: for an inner box
    that lies in the outer box, itself in the image. *)
Theorem crop_of_crop (img : ndarray F) (t1 l1 h1 w1 t2 l2 h2 w2 : Z)
    (channel_pos : string) :
  0 <= t1 -> 0 <= l1 -> 0 <= t2 -> 0 <= l2 -> 0 <= h2 -> 0 <= w2 ->
  t1 + h1 <= Z.of_nat (rows channel_pos img) ->
  l1 + w1 <= Z.of_nat (cols channel_pos img) ->
  t2 + h2 <= h1 -> l2 + w2 <= w1 ->
  exists inner direct,
    (x <- crop img (t1, l1) h1 w1 channel_pos ;; crop x (t2, l2) h2 w2 channel_pos)
      = Ok inner /\
    crop img (t1 + t2, l1 + l2) h2 w2 channel_pos = Ok direct /\
    array_equal inner direct.
Proof.
  intros Ht1 Hl1 Ht2 Hl2 Hh2 Hw2 Hr Hc Hh Hw.
  rewrite (crop_passes img (t1, l1)) by (cbn [fst snd]; lia).
  rewrite (crop_passes img (t1 + t2, l1 + l2)) by (cbn [fst snd]; lia).
  unfold rows, cols, to_canonical, from_canonical in *.
  destruct (is_first channel_pos) eqn:E; layout; cbn [fst snd].
  - rewrite crop_passes;
      unfold rows, cols, to_canonical, from_canonical; rewrite ?E; cbn [fst snd].
    + layout. do 2 eexists; split; [reflexivity|split; [reflexivity|]].
      apply array_equal_to_first.
      apply getitem_getitem; shapes; lia.
    + unfold getitem; shapes.
      rewrite (slice_len_inside (shape1 img) t1 h1) by lia. lia.
    + unfold getitem; shapes.
      rewrite (slice_len_inside (shape2 img) l1 w1) by lia. lia.
  - rewrite crop_passes;
      unfold rows, cols, to_canonical, from_canonical; rewrite ?E; cbn [fst snd].
    + layout. do 2 eexists; split; [reflexivity|split; [reflexivity|]].
      apply getitem_getitem; lia.
    + unfold getitem; shapes.
      rewrite (slice_len_inside (shape0 img) t1 h1) by lia. lia.
    + unfold getitem; shapes.
      rewrite (slice_len_inside (shape1 img) l1 w1) by lia. lia.
Qed.

Lemma adjust_index_from_end (n : nat) (k len : Z) :
  0 < k <= Z.of_nat n -> 0 <= len < k ->
  adjust_index n (- k) = adjust_index n (Z.of_nat n - k) /\
  adjust_index n (- k + len) = adjust_index n (Z.of_nat n - k + len).
Proof.
  intros Hk Hl. unfold adjust_index.
  split;
    repeat match goal with
           | |- context [?a <? 0] => destruct (Z.ltb_spec a 0)
           end; lia.
Qed.

Lemma getitem_from_end (a : ndarray F) (k l height width : Z) :
  0 < k <= Z.of_nat (shape0 a) -> 0 < l <= Z.of_nat (shape1 a) ->
  0 <= height < k -> 0 <= width < l ->
  getitem a (- k, - k + height) (- l, - l + width) =
  getitem a (Z.of_nat (shape0 a) - k, Z.of_nat (shape0 a) - k + height)
            (Z.of_nat (shape1 a) - l, Z.of_nat (shape1 a) - l + width).
Proof.
  intros Hk Hl Hh Hw.
  destruct (adjust_index_from_end (shape0 a) k height Hk Hh) as [E1 E2].
  destruct (adjust_index_from_end (shape1 a) l width Hl Hw) as [E3 E4].
  unfold getitem, slice_len, slice_start, slice_stop; cbn [fst snd].
  now rewrite E1, E2, E3, E4.
Qed.

(** A negative corner is not an error: the slices count it from the
    end of the axis.  The box of corner [(-k, -l)] that stops short of
    the last row and the last column is the box of corner
    [(rows - k, cols - l)]. *)
Theorem crop_negative_corner (img : ndarray F) (k l height width : Z)
    (channel_pos : string) :
  0 < k <= Z.of_nat (rows channel_pos img) ->
  0 < l <= Z.of_nat (cols channel_pos img) ->
  0 <= height < k -> 0 <= width < l ->
  exists out,
    crop img (- k, - l) height width channel_pos = Ok out /\
    crop img (Z.of_nat (rows channel_pos img) - k, Z.of_nat (cols channel_pos img) - l)
      height width channel_pos = Ok out.
Proof.
  intros Hk Hl Hh Hw.
  rewrite !crop_passes by (cbn [fst snd]; lia).
  unfold rows, cols, to_canonical, from_canonical in *.
  destruct (is_first channel_pos); layout; cbn [fst snd];
    rewrite getitem_from_end by (shapes; assumption);
    eexists; split; reflexivity.
Qed.

(** A box of corner row [-k] that reaches the last row or goes beyond
    it, [k <= height <= rows], passes the test and comes back with no
    rows at all. *)
Theorem crop_negative_corner_empty (img : ndarray F) (k left height width : Z)
    (channel_pos : string) :
  0 < k <= height -> height <= Z.of_nat (rows channel_pos img) ->
  0 <= left -> 0 <= width -> left + width <= Z.of_nat (cols channel_pos img) ->
  exists out,
    crop img (- k, left) height width channel_pos = Ok out /\
    rows channel_pos out = O /\
    cols channel_pos out = Z.to_nat width.
Proof.
  intros Hk Hh Hl Hw Hc.
  rewrite crop_passes by (cbn [fst snd]; lia).
  unfold rows, cols, to_canonical, from_canonical in *.
  destruct (is_first channel_pos); layout;
    (eexists; split; [reflexivity|]);
    unfold getitem; shapes; split; slices; lia.
Qed.

End MoreCrop.

Lemma crop_of_crop_witness :
  (0 <= 2 /\ 0 <= 1 /\ 0 <= 3 /\
   2 + 6 <= Z.of_nat (rows "first" (ramp 3 10 10)) /\
   2 + 6 <= Z.of_nat (cols "first" (ramp 3 10 10)) /\
   1 + 3 <= 6) /\
  exists inner direct,
    (x <- crop (ramp 3 10 10) (2, 2) 6 6 "first" ;; crop x (1, 1) 3 3 "first") = Ok inner /\
    crop (ramp 3 10 10) (2 + 1, 2 + 1) 3 3 "first" = Ok direct /\
    array_equal inner direct.
Proof.
  split; [cbn; lia|].
  apply (crop_of_crop (ramp 3 10 10) 2 2 6 6 1 1 3 3 "first"); cbn; lia.
Defined.

Lemma crop_negative_corner_witness :
  (0 < 4 <= Z.of_nat (rows "first" (ramp 3 10 10)) /\
   0 < 4 <= Z.of_nat (cols "first" (ramp 3 10 10)) /\
   0 <= 3 < 4) /\
  exists out,
    crop (ramp 3 10 10) (- (4), - (4)) 3 3 "first" = Ok out /\
    crop (ramp 3 10 10)
      (Z.of_nat (rows "first" (ramp 3 10 10)) - 4, Z.of_nat (cols "first" (ramp 3 10 10)) - 4)
      3 3 "first" = Ok out.
Proof.
  split; [cbn; lia|].
  apply (crop_negative_corner (ramp 3 10 10) 4 4 3 3 "first"); cbn; lia.
Defined.

Lemma crop_negative_corner_empty_witness :
  (0 < 1 <= 3 /\ 3 <= Z.of_nat (rows "first" (ramp 3 4 4)) /\
   0 <= 0 /\ 0 <= 2 /\ 0 + 2 <= Z.of_nat (cols "first" (ramp 3 4 4))) /\
  exists out,
    crop (ramp 3 4 4) (- (1), 0) 3 2 "first" = Ok out /\
    rows "first" out = O /\
    cols "first" out = Z.to_nat 2.
Proof.
  split; [cbn; lia|].
  apply (crop_negative_corner_empty (ramp 3 4 4) 1 0 3 2 "first"); cbn; lia.
Defined.

(** ** More on resize, zoom and the transforms built on warp *)

Section MoreResize.

Context {F : Type} {num : Number F} {lib : Library F}.

(** A size of three elements whose last is not the channel count of the
    image makes [resize] raise [AssertionError], in either layout and
    before the library is called. *)
Theorem resize_channel_mismatch_raises (img : ndarray F) (a b c : Z)
    (interpolation_order : Z) (anti_aliasing : bool) (channel_pos : string) :
  c <> Z.of_nat (channels channel_pos img) ->
  resize img (SizeTuple [a; b; c]) interpolation_order anti_aliasing channel_pos =
  Raise AssertionError.
Proof.
  unfold resize, channels, to_canonical.
  destruct (is_first channel_pos); intros Hc; layout;
    cbn [resize_output_shape List.length Nat.eqb bind]; unfold getitem_last; shapes;
    cbn [last];
    match goal with
    | |- context [?x =? ?y] => destruct (Z.eqb_spec x y); [congruence|reflexivity]
    end.
Qed.

(** A tuple that has neither two nor three elements matches no branch
    of the chain: [resize] raises [UnboundLocalError]. *)
Theorem resize_other_tuple_raises (img : ndarray F) (l : list Z)
    (interpolation_order : Z) (anti_aliasing : bool) (channel_pos : string) :
  List.length l <> 2%nat -> List.length l <> 3%nat ->
  resize img (SizeTuple l) interpolation_order anti_aliasing channel_pos =
  Raise UnboundLocalError.
Proof.
  intros H2 H3. unfold resize, to_canonical.
  destruct (is_first channel_pos); layout; unfold resize_output_shape;
    destruct (Nat.eqb_spec (List.length l) 2); try contradiction;
    destruct (Nat.eqb_spec (List.length l) 3); try contradiction;
    reflexivity.
Qed.

(** [zoom] to a box whose bottom or right edge lies past the image
    raises the [IndexError] of [crop], whatever the keyword arguments
    are; [resize] is not reached. *)
Theorem zoom_past_extent_raises (img : ndarray F) (tl : Z * Z) (height width : Z)
    (channel_pos : string) (kw : resize_kwargs) :
  fst tl + height > Z.of_nat (rows channel_pos img) \/
  snd tl + width > Z.of_nat (cols channel_pos img) ->
  zoom img tl height width channel_pos kw = Raise IndexError.
Proof.
  unfold zoom, crop, rows, cols, to_canonical.
  destruct (is_first channel_pos); intros H; rewrite ?is_first_last; layout; shapes;
    match goal with
    | |- context [if (?a >? ?b) || (?c >? ?d) then _ else _] =>
        destruct (Z.gtb_spec a b); destruct (Z.gtb_spec c d)
    end; cbn [orb bind]; try reflexivity; lia.
Qed.

(** [shear] is [affine_transform] with the shear angle as its only
    parameter. *)
Theorem shear_is_affine_transform (img : ndarray F) (angle : F)
    (interpolation_order : Z) (channel_pos : string) :
  shear img angle interpolation_order channel_pos =
  affine_transform img None None (Some angle) None interpolation_order channel_pos.
Proof. reflexivity. Qed.

Lemma np_shape_inj (a : ndarray F) (x y z : Z) :
  np_shape a = [x; y; z] ->
  Z.of_nat (shape0 a) = x /\ Z.of_nat (shape1 a) = y /\ Z.of_nat (shape2 a) = z.
Proof. unfold np_shape. intros H. inversion H. auto. Qed.

Lemma np_shape_eq (a b : ndarray F) :
  np_shape a = np_shape b ->
  shape0 a = shape0 b /\ shape1 a = shape1 b /\ shape2 a = shape2 b.
Proof.
  unfold np_shape. intros H. inversion H.
  repeat split; now apply Nat2Z.inj.
Qed.

(** Where [warp] returns the shape it is asked for, the image that
    [resize] returns for an int [n] has [n] rows, [n] columns and the
    channels of the image, and for a size [(a, b, c)] it has [a] rows
    and [b] columns, on the axes of the layout it was given. *)
Theorem resize_result_shape (img : ndarray F) (interpolation_order : Z)
    (anti_aliasing : bool) (channel_pos : string) :
  warp_honours_output_shape ->
  (forall n : Z,
     match resize img (SizeInt n) interpolation_order anti_aliasing channel_pos with
     | Ok out =>
         Z.of_nat (rows channel_pos out) = n /\ Z.of_nat (cols channel_pos out) = n /\
         channels channel_pos out = channels channel_pos img
     | Raise _ => True
     end)
  /\
  (forall a b c : Z,
     match resize img (SizeTuple [a; b; c]) interpolation_order anti_aliasing channel_pos with
     | Ok out =>
         Z.of_nat (rows channel_pos out) = a /\ Z.of_nat (cols channel_pos out) = b /\
         channels channel_pos out = channels channel_pos img
     | Raise _ => True
     end).
Proof.
  intros Hw. unfold resize, rows, cols, channels, to_canonical, from_canonical.
  split; intros;
    destruct (is_first channel_pos); layout;
    cbn [resize_output_shape List.length Nat.eqb bind]; unfold getitem_last; shapes;
    cbn [last];
    match goal with
    | |- context [assert ?b] => destruct b eqn:Ea; cbn [assert bind]; [|exact I]
    end;
    (destruct anti_aliasing; cbn [bind];
     [ match goal with
       | |- context [gaussian_filter ?x ?y] =>
           destruct (gaussian_filter x y); cbn [bind]; [|exact I]
       end
     | ]);
    match goal with
    | |- context [warp ?x ?m (Some ?shp) ?o] =>
        destruct (warp x m (Some shp) o) as [out|e] eqn:E; cbn [bind]; [|exact I];
        apply Hw in E; apply np_shape_inj in E; destruct E as (E0 & E1 & E2)
    end;
    layout; shapes; repeat split; try assumption;
    try (apply Nat2Z.inj; rewrite E2; try reflexivity; apply Z.eqb_eq in Ea; congruence).
Qed.

(** Where [warp] returns the shape it is asked for, an image returned
    by [zoom] has the shape of the image it was given. *)
Theorem zoom_keeps_shape (img : ndarray F) (tl : Z * Z) (height width : Z)
    (channel_pos : string) (kw : resize_kwargs) :
  warp_honours_output_shape ->
  match zoom img tl height width channel_pos kw with
  | Ok out => np_shape out = np_shape img
  | Raise _ => True
  end.
Proof.
  intros Hw. unfold zoom, to_canonical, from_canonical.
  destruct (is_first channel_pos); layout;
    (destruct (crop _ tl height width "last") as [zoomed|e]; cbn [bind]; [|exact I]);
    unfold resize, to_canonical, from_canonical; rewrite is_first_last; layout;
    cbn [resize_output_shape List.length Nat.eqb bind np_shape];
    (destruct (assert _); cbn [bind]; [|exact I]);
    (destruct (default (kw_anti_aliasing kw) false); cbn [bind];
     [ match goal with
       | |- context [gaussian_filter ?x ?y] =>
           destruct (gaussian_filter x y); cbn [bind]; [|exact I]
       end
     | ]);
    match goal with
    | |- context [warp ?x ?m (Some ?shp) ?o] =>
        destruct (warp x m (Some shp) o) as [out|e] eqn:E; cbn [bind]; [|exact I];
        apply Hw in E; apply np_shape_inj in E; destruct E as (E0 & E1 & E2)
    end;
    layout; unfold np_shape in *; shapes;
    cbn [transpose shape0 shape1 shape2 axis_len nth] in *; congruence.
Qed.

(** Where [warp] returns the shape it is asked for, an image returned
    by [stretch] has the shape of the image it was given. *)
Theorem stretch_keeps_shape (img : ndarray F) (angle : F) (interpolation_order : Z)
    (anti_aliasing : bool) (channel_pos : string) :
  warp_honours_output_shape ->
  match stretch img angle interpolation_order anti_aliasing channel_pos with
  | Ok out => np_shape out = np_shape img
  | Raise _ => True
  end.
Proof.
  intros Hw. unfold stretch, to_canonical, from_canonical.
  destruct (is_first channel_pos); layout;
    (destruct (shear _ angle interpolation_order "last") as [sheared|e];
     cbn [bind]; [|exact I]);
    unfold resize, to_canonical, from_canonical; rewrite is_first_last; layout;
    cbn [resize_output_shape List.length Nat.eqb bind np_shape];
    (destruct (assert _); cbn [bind]; [|exact I]);
    (destruct anti_aliasing; cbn [bind];
     [ match goal with
       | |- context [gaussian_filter ?x ?y] =>
           destruct (gaussian_filter x y); cbn [bind]; [|exact I]
       end
     | ]);
    match goal with
    | |- context [warp ?x ?m (Some ?shp) ?o] =>
        destruct (warp x m (Some shp) o) as [out|e] eqn:E; cbn [bind]; [|exact I];
        apply Hw in E; apply np_shape_inj in E; destruct E as (E0 & E1 & E2)
    end;
    layout; unfold np_shape in *; shapes;
    cbn [transpose shape0 shape1 shape2 axis_len nth] in *; congruence.
Qed.

(** Where [warp] without [output_shape] returns the shape of its input,
    an image returned by [affine_transform], and so by [shear], has the
    shape of the image it was given. *)
Theorem affine_transform_keeps_shape (img : ndarray F) (scales : option (F * F))
    (rot sh : option F) (translate : option (F * F)) (interpolation_order : Z)
    (channel_pos : string) :
  warp_keeps_shape ->
  match affine_transform img scales rot sh translate interpolation_order channel_pos with
  | Ok out => np_shape out = np_shape img
  | Raise _ => True
  end.
Proof.
  intros Hw. unfold affine_transform, to_canonical, from_canonical.
  destruct (is_first channel_pos); layout;
    (destruct (inverse _) as [inv|e]; cbn [bind]; [|exact I]);
    match goal with
    | |- context [warp ?x ?m None ?o] =>
        destruct (warp x m None o) as [out|e] eqn:E; cbn [bind]; [|exact I];
        apply Hw in E; apply np_shape_eq in E; destruct E as (E0 & E1 & E2)
    end;
    layout; unfold np_shape in *; shapes;
    cbn [transpose shape0 shape1 shape2 axis_len nth] in *; congruence.
Qed.

(** Where [ndimage.rotate] without reshaping returns the shape of its
    input, an image returned by [rotate] with [reshape=False] has the
    shape of the image it was given. *)
Theorem rotate_keeps_shape_unless_reshaped (img : ndarray F) (angle : F)
    (interpolation_order : Z) (channel_pos : string) :
  rotate_keeps_shape ->
  match rotate img angle false interpolation_order channel_pos with
  | Ok out => np_shape out = np_shape img
  | Raise _ => True
  end.
Proof.
  intros Hr. unfold rotate, to_canonical, from_canonical.
  destruct (is_first channel_pos); layout;
    match goal with
    | |- context [ndi_rotate ?x ?a false ?o] =>
        destruct (ndi_rotate x a false o) as [out|e] eqn:E; cbn [bind]; [|exact I];
        apply Hr in E; apply np_shape_eq in E; destruct E as (E0 & E1 & E2)
    end;
    layout; unfold np_shape in *; shapes;
    cbn [transpose shape0 shape1 shape2 axis_len nth] in *; congruence.
Qed.

End MoreResize.

(** The executable instance keeps what the library documents. *)
Lemma nearest_warp_honours_output_shape :
  warp_honours_output_shape (lib := nearest_library).
Proof.
  intros img m shp order out H.
  cbn [warp nearest_library] in H. unfold warp_nearest, default in H.
  destruct m as [[[[a b] tx] [[c d] ty]] r].
  destruct shp as [|x [|y [|z [|u shp]]]]; cbn [List.length Nat.eqb negb orb] in H;
    try discriminate H.
  cbn [existsb] in H.
  destruct (Z.ltb_spec x 0); cbn [orb] in H; [discriminate H|].
  destruct (Z.ltb_spec y 0); cbn [orb] in H; [discriminate H|].
  destruct (Z.ltb_spec z 0); cbn [orb] in H; [discriminate H|].
  inversion H; subst out; clear H.
  unfold np_shape; cbn [shape0 shape1 shape2 nth].
  now rewrite !Z2Nat.id by assumption.
Qed.

Lemma nearest_warp_keeps_shape : warp_keeps_shape (lib := nearest_library).
Proof.
  intros img m order out H.
  cbn [warp nearest_library] in H. unfold warp_nearest, default in H.
  destruct m as [[[[a b] tx] [[c d] ty]] r].
  destruct (negb _ || _); [discriminate H|].
  inversion H; subst out; clear H.
  unfold np_shape; cbn [shape0 shape1 shape2 nth].
  now rewrite !Nat2Z.id.
Qed.

Lemma nearest_rotate_keeps_shape : rotate_keeps_shape (lib := nearest_library).
Proof.
  intros img angle order out H.
  cbn [ndi_rotate nearest_library] in H. unfold rotate_nearest in H.
  now apply nearest_warp_keeps_shape in H.
Qed.

Lemma resize_channel_mismatch_raises_witness :
  4 <> Z.of_nat (channels "first" (ramp 3 10 10)) /\
  resize (ramp 3 10 10) (SizeTuple [5; 5; 4]) 3 false "first" = Raise AssertionError.
Proof.
  assert (H : 4 <> Z.of_nat (channels "first" (ramp 3 10 10))) by (cbn; lia).
  split; [exact H|].
  exact (resize_channel_mismatch_raises (ramp 3 10 10) 5 5 4 3 false "first" H).
Defined.

Lemma resize_other_tuple_raises_witness :
  (List.length [5] <> 2%nat /\ List.length [5] <> 3%nat) /\
  resize (ramp 3 10 10) (SizeTuple [5]) 3 false "first" = Raise UnboundLocalError.
Proof.
  assert (H2 : List.length [5] <> 2%nat) by (cbn; lia).
  assert (H3 : List.length [5] <> 3%nat) by (cbn; lia).
  split; [split; assumption|].
  exact (resize_other_tuple_raises (ramp 3 10 10) [5] 3 false "first" H2 H3).
Defined.

Lemma zoom_past_extent_raises_witness :
  (fst (8, 8) + 5 > Z.of_nat (rows "first" (ramp 3 10 10)) \/
   snd (8, 8) + 5 > Z.of_nat (cols "first" (ramp 3 10 10))) /\
  zoom (ramp 3 10 10) (8, 8) 5 5 "first" no_kwargs = Raise IndexError.
Proof.
  assert (H : fst (8, 8) + 5 > Z.of_nat (rows "first" (ramp 3 10 10)) \/
              snd (8, 8) + 5 > Z.of_nat (cols "first" (ramp 3 10 10))).
  { left. cbn. lia. }
  split; [exact H|].
  exact (zoom_past_extent_raises (ramp 3 10 10) (8, 8) 5 5 "first" no_kwargs H).
Defined.

Lemma resize_result_shape_witness :
  warp_honours_output_shape (lib := nearest_library) /\
  is_ok (resize (ramp 3 4 4) (SizeInt 8) 0 false "first") = true /\
  (forall n : Z,
     match resize (ramp 3 4 4) (SizeInt n) 0 false "first" with
     | Ok out =>
         Z.of_nat (rows "first" out) = n /\ Z.of_nat (cols "first" out) = n /\
         channels "first" out = channels "first" (ramp 3 4 4)
     | Raise _ => True
     end).
Proof.
  split; [exact nearest_warp_honours_output_shape|].
  split; [vm_compute; reflexivity|].
  exact (proj1 (resize_result_shape (ramp 3 4 4) 0 false "first"
                  nearest_warp_honours_output_shape)).
Defined.

Lemma zoom_keeps_shape_witness :
  warp_honours_output_shape (lib := nearest_library) /\
  is_ok (zoom (ramp 3 4 4) (1, 1) 2 2 "first" no_kwargs) = true /\
  match zoom (ramp 3 4 4) (1, 1) 2 2 "first" no_kwargs with
  | Ok out => np_shape out = np_shape (ramp 3 4 4)
  | Raise _ => True
  end.
Proof.
  split; [exact nearest_warp_honours_output_shape|].
  split; [vm_compute; reflexivity|].
  exact (zoom_keeps_shape (ramp 3 4 4) (1, 1) 2 2 "first" no_kwargs
           nearest_warp_honours_output_shape).
Defined.

Lemma stretch_keeps_shape_witness :
  warp_honours_output_shape (lib := nearest_library) /\
  is_ok (stretch (ramp 3 4 4) 0%Q 0 false "first") = true /\
  match stretch (ramp 3 4 4) 0%Q 0 false "first" with
  | Ok out => np_shape out = np_shape (ramp 3 4 4)
  | Raise _ => True
  end.
Proof.
  split; [exact nearest_warp_honours_output_shape|].
  split; [vm_compute; reflexivity|].
  exact (stretch_keeps_shape (ramp 3 4 4) 0%Q 0 false "first"
           nearest_warp_honours_output_shape).
Defined.

Lemma affine_transform_keeps_shape_witness :
  warp_keeps_shape (lib := nearest_library) /\
  is_ok (affine_transform (ramp 3 4 4) (Some (2%Q, 2%Q)) None None None 0 "first") = true /\
  match affine_transform (ramp 3 4 4) (Some (2%Q, 2%Q)) None None None 0 "first" with
  | Ok out => np_shape out = np_shape (ramp 3 4 4)
  | Raise _ => True
  end.
Proof.
  split; [exact nearest_warp_keeps_shape|].
  split; [vm_compute; reflexivity|].
  exact (affine_transform_keeps_shape (ramp 3 4 4) (Some (2%Q, 2%Q)) None None None 0
           "first" nearest_warp_keeps_shape).
Defined.

Lemma rotate_keeps_shape_unless_reshaped_witness :
  rotate_keeps_shape (lib := nearest_library) /\
  is_ok (rotate (ramp 3 4 4) 0%Q false 0 "first") = true /\
  match rotate (ramp 3 4 4) 0%Q false 0 "first" with
  | Ok out => np_shape out = np_shape (ramp 3 4 4)
  | Raise _ => True
  end.
Proof.
  split; [exact nearest_rotate_keeps_shape|].
  split; [vm_compute; reflexivity|].
  exact (rotate_keeps_shape_unless_reshaped (ramp 3 4 4) 0%Q 0 "first"
           nearest_rotate_keeps_shape).
Defined.

(** ** More on erase *)

Section MoreErase.

Context {F : Type}.

(** What one call of [erase] does to the image read through the array
    object it was given. *)
Lemma erase_effect (h : heap) (img : pyarray) (tl : Z * Z) (height width : Z) (val : F)
    (channel_pos : string) :
  valid_view img ->
  fst (erase img tl height width val channel_pos h) = Ok img /\
  shape0 (deref (snd (erase img tl height width val channel_pos h)) img) =
    shape0 (deref h img) /\
  shape1 (deref (snd (erase img tl height width val channel_pos h)) img) =
    shape1 (deref h img) /\
  shape2 (deref (snd (erase img tl height width val channel_pos h)) img) =
    shape2 (deref h img) /\
  forall i j k : nat,
    item (deref (snd (erase img tl height width val channel_pos h)) img) i j k =
    if reached channel_pos (deref h img) tl height width i j k
    then val else item (deref h img) i j k.
Proof.
  intros Hv. destruct img as [b p]. unfold valid_view in Hv. cbn [axes In] in Hv.
  unfold erase, reached, py_bind, py_lift, py_write, moveaxis_view.
  destruct (is_first channel_pos);
    rewrite ?moveaxis_order_first_to_last, ?moveaxis_order_last_to_first;
    cbn [bind fst snd base axes];
    repeat destruct Hv as [Hv|Hv]; try contradiction; subst p;
    cbn [map nth bind fst snd base axes];
    unfold setitem_view, deref, store;
    cbn [base axes]; rewrite Nat.eqb_refl;
    repeat split; intros; reflexivity.
Qed.

Lemma in_slice_empty (n : nat) (start : Z) (i : nat) :
  in_slice n (start, start + 0) i = false.
Proof.
  unfold in_slice, slice_start, slice_stop. cbn [fst snd]. rewrite Z.add_0_r.
  destruct (Nat.leb_spec (adjust_index n start) i);
    destruct (Nat.ltb_spec i (adjust_index n start)); try reflexivity; lia.
Qed.

(** Erasing the same box with the same value a second time changes
    nothing more. *)
Theorem erase_twice (h : heap) (img : pyarray) (tl : Z * Z) (height width : Z) (val : F)
    (channel_pos : string) :
  valid_view img ->
  forall i j k : nat,
    item (deref (snd (erase img tl height width val channel_pos
                        (snd (erase img tl height width val channel_pos h)))) img) i j k =
    item (deref (snd (erase img tl height width val channel_pos h)) img) i j k.
Proof.
  intros Hv i j k.
  destruct (erase_effect h img tl height width val channel_pos Hv)
    as (_ & H0 & H1 & H2 & Hitem).
  destruct (erase_effect (snd (erase img tl height width val channel_pos h))
              img tl height width val channel_pos Hv) as (_ & _ & _ & _ & Hitem').
  rewrite Hitem'. unfold reached. rewrite H0, H1, H2.
  fold (reached channel_pos (deref h img) tl height width i j k).
  rewrite Hitem.
  now destruct (reached channel_pos (deref h img) tl height width i j k).
Qed.

(** A box of height 0 or of width 0 erases nothing, wherever its corner
    is. *)
Theorem erase_empty_box (h : heap) (img : pyarray) (tl : Z * Z) (height width : Z)
    (val : F) (channel_pos : string) :
  valid_view img ->
  height = 0 \/ width = 0 ->
  forall i j k : nat,
    item (deref (snd (erase img tl height width val channel_pos h)) img) i j k =
    item (deref h img) i j k.
Proof.
  intros Hv He i j k.
  destruct (erase_effect h img tl height width val channel_pos Hv)
    as (_ & _ & _ & _ & Hitem).
  rewrite Hitem. unfold reached.
  destruct He as [-> | ->]; destruct (is_first channel_pos);
    rewrite in_slice_empty, ?andb_false_r; reflexivity.
Qed.

(** The write is seen through every array object on the same buffer:
    after [erase] on a channel-first array, its channels-last view reads
    [val] in the rows and columns of the box and the old samples
    elsewhere. *)
Theorem erase_seen_through_view (h : heap) (img v : pyarray) (tl : Z * Z)
    (height width : Z) (val : F) :
  valid_view img ->
  moveaxis_view img 0 (-1) = Ok v ->
  forall i j k : nat,
    item (deref (snd (erase img tl height width val "first" h)) v) i j k =
    if in_slice (shape0 (deref h v)) (fst tl, fst tl + height) i &&
       in_slice (shape1 (deref h v)) (snd tl, snd tl + width) j
    then val else item (deref h v) i j k.
Proof.
  intros Hv Hm i j k. destruct img as [b p]. unfold valid_view in Hv. cbn [axes In] in Hv.
  unfold moveaxis_view in Hm. rewrite moveaxis_order_first_to_last in Hm.
  cbn [bind base axes] in Hm. inversion Hm; subst v; clear Hm.
  unfold erase, py_bind, py_lift, py_write, moveaxis_view.
  change (is_first "first") with true. cbv iota.
  rewrite ?moveaxis_order_first_to_last, ?moveaxis_order_last_to_first;
    cbn [bind fst snd base axes];
    repeat destruct Hv as [Hv|Hv]; try contradiction; subst p;
    cbn [map nth bind fst snd base axes];
    unfold setitem_view, deref, store;
    cbn [base axes]; rewrite Nat.eqb_refl; reflexivity.
Qed.

(** [erase] on a fresh array is the assignment on the channels-last
    image, moved back. *)
Lemma erase_fresh_value (img : ndarray F) (tl : Z * Z) (height width : Z) (val : F)
    (channel_pos : string) :
  erase_fresh img tl height width val channel_pos =
  (c <- to_canonical channel_pos img ;;
   from_canonical channel_pos
     (setitem c (fst tl, fst tl + height) (snd tl, snd tl + width) val)).
Proof.
  unfold erase_fresh, erase, py_bind, py_lift, py_write, moveaxis_view,
    to_canonical, from_canonical.
  destruct (is_first channel_pos); layout;
    rewrite ?moveaxis_order_first_to_last, ?moveaxis_order_last_to_first;
    destruct img; reflexivity.
Qed.

Lemma in_slice_inside (n : nat) (start len : Z) (i : nat) :
  0 <= start -> 0 <= len -> start + len <= Z.of_nat n -> (i < Z.to_nat len)%nat ->
  in_slice n (start, start + len) (Z.to_nat start + i) = true.
Proof.
  intros Hs Hl Hn Hi.
  apply (in_slice_nonneg n start len (Z.to_nat start + i)); lia.
Qed.

(** Cropping the box that was just erased, a box inside the image,
    returns an image that holds [val] everywhere. *)
Theorem crop_of_erased_box (img : ndarray F) (top left height width : Z) (val : F)
    (channel_pos : string) :
  0 <= top -> 0 <= left -> 0 <= height -> 0 <= width ->
  top + height <= Z.of_nat (rows channel_pos img) ->
  left + width <= Z.of_nat (cols channel_pos img) ->
  exists out,
    (x <- erase_fresh img (top, left) height width val channel_pos ;;
     crop x (top, left) height width channel_pos) = Ok out /\
    rows channel_pos out = Z.to_nat height /\
    cols channel_pos out = Z.to_nat width /\
    channels channel_pos out = channels channel_pos img /\
    forall i j c : nat,
      (i < Z.to_nat height)%nat -> (j < Z.to_nat width)%nat ->
      pixel channel_pos out i j c = val.
Proof.
  intros Ht Hl Hh Hw Hr Hc.
  rewrite erase_fresh_value.
  unfold rows, cols, channels, pixel, to_canonical, from_canonical in *.
  destruct (is_first channel_pos) eqn:E; layout; cbn [fst snd];
    (rewrite crop_passes;
     unfold rows, cols, to_canonical, from_canonical; rewrite ?E; cbn [fst snd];
     [ | unfold setitem; shapes; lia | unfold setitem; shapes; lia ]);
    layout; (eexists; split; [reflexivity|]);
    unfold getitem, setitem; shapes;
    rewrite !slice_len_inside, !slice_start_inside by lia;
    repeat split; intros;
    rewrite !in_slice_inside by lia; reflexivity.
Qed.

End MoreErase.

Lemma erase_twice_witness :
  valid_view (mk_pyarray O [0; 1; 2]%nat) /\
  forall i j k : nat,
    item (deref (snd (erase (mk_pyarray O [0; 1; 2]%nat) (1, 1) 5 5 7%Q "first"
                        (snd (erase (mk_pyarray O [0; 1; 2]%nat) (1, 1) 5 5 7%Q "first"
                                (fun _ => ramp 2 3 3)))))
            (mk_pyarray O [0; 1; 2]%nat)) i j k =
    item (deref (snd (erase (mk_pyarray O [0; 1; 2]%nat) (1, 1) 5 5 7%Q "first"
                        (fun _ => ramp 2 3 3)))
            (mk_pyarray O [0; 1; 2]%nat)) i j k.
Proof.
  assert (Hv : valid_view (mk_pyarray O [0; 1; 2]%nat)) by (left; reflexivity).
  split; [exact Hv|].
  exact (erase_twice (fun _ => ramp 2 3 3) (mk_pyarray O [0; 1; 2]%nat)
           (1, 1) 5 5 7%Q "first" Hv).
Defined.

Lemma erase_empty_box_witness :
  (valid_view (mk_pyarray O [0; 1; 2]%nat) /\ (0 = 0 \/ 2 = 0)) /\
  forall i j k : nat,
    item (deref (snd (erase (mk_pyarray O [0; 1; 2]%nat) (1, 1) 0 2 7%Q "first"
                        (fun _ => ramp 2 3 3)))
            (mk_pyarray O [0; 1; 2]%nat)) i j k =
    item (deref (fun _ => ramp 2 3 3) (mk_pyarray O [0; 1; 2]%nat)) i j k.
Proof.
  assert (Hv : valid_view (mk_pyarray O [0; 1; 2]%nat)) by (left; reflexivity).
  assert (He : 0 = 0 \/ 2 = 0) by (left; reflexivity).
  split; [split; assumption|].
  exact (erase_empty_box (fun _ => ramp 2 3 3) (mk_pyarray O [0; 1; 2]%nat)
           (1, 1) 0 2 7%Q "first" Hv He).
Defined.

Lemma erase_seen_through_view_witness :
  (valid_view (mk_pyarray O [0; 1; 2]%nat) /\
   moveaxis_view (mk_pyarray O [0; 1; 2]%nat) 0 (-1) = Ok (mk_pyarray O [1; 2; 0]%nat)) /\
  forall i j k : nat,
    item (deref (snd (erase (mk_pyarray O [0; 1; 2]%nat) (1, 1) 5 5 7%Q "first"
                        (fun _ => ramp 2 3 3)))
            (mk_pyarray O [1; 2; 0]%nat)) i j k =
    if in_slice (shape0 (deref (fun _ => ramp 2 3 3) (mk_pyarray O [1; 2; 0]%nat)))
         (fst (1, 1), fst (1, 1) + 5) i &&
       in_slice (shape1 (deref (fun _ => ramp 2 3 3) (mk_pyarray O [1; 2; 0]%nat)))
         (snd (1, 1), snd (1, 1) + 5) j
    then 7%Q
    else item (deref (fun _ => ramp 2 3 3) (mk_pyarray O [1; 2; 0]%nat)) i j k.
Proof.
  assert (Hv : valid_view (mk_pyarray O [0; 1; 2]%nat)) by (left; reflexivity).
  assert (Hm : moveaxis_view (mk_pyarray O [0; 1; 2]%nat) 0 (-1)
               = Ok (mk_pyarray O [1; 2; 0]%nat)) by reflexivity.
  split; [split; assumption|].
  exact (erase_seen_through_view (fun _ => ramp 2 3 3) (mk_pyarray O [0; 1; 2]%nat)
           (mk_pyarray O [1; 2; 0]%nat) (1, 1) 5 5 7%Q Hv Hm).
Defined.

Lemma crop_of_erased_box_witness :
  (0 <= 1 /\ 0 <= 2 /\
   1 + 2 <= Z.of_nat (rows "first" (ramp 2 3 3)) /\
   1 + 2 <= Z.of_nat (cols "first" (ramp 2 3 3))) /\
  exists out,
    (x <- erase_fresh (ramp 2 3 3) (1, 1) 2 2 7%Q "first" ;;
     crop x (1, 1) 2 2 "first") = Ok out /\
    rows "first" out = Z.to_nat 2 /\
    cols "first" out = Z.to_nat 2 /\
    channels "first" out = channels "first" (ramp 2 3 3) /\
    forall i j c : nat,
      (i < Z.to_nat 2)%nat -> (j < Z.to_nat 2)%nat ->
      pixel "first" out i j c = 7%Q.
Proof.
  split; [cbn; lia|].
  apply (crop_of_erased_box (ramp 2 3 3) 1 1 2 2 7%Q "first"); cbn; lia.
Defined.

(** ** More on normalise *)

Section MoreNormalise.

Context {F : Type} {num : Number F}.

(** With a scalar mean and a scalar standard deviation, [normalise]
    commutes with the change of layout: it may be applied before or
    after the channels are moved. *)
Theorem normalise_scalars_commute_with_layout (img : ndarray F) (mean std : F)
    (channel_pos : string) :
  (c <- to_canonical channel_pos img ;; normalise c (Scalar mean) (Scalar std)) =
  (out <- normalise img (Scalar mean) (Scalar std) ;; to_canonical channel_pos out)
  /\
  (c <- from_canonical channel_pos img ;; normalise c (Scalar mean) (Scalar std)) =
  (out <- normalise img (Scalar mean) (Scalar std) ;; from_canonical channel_pos out).
Proof.
  unfold to_canonical, from_canonical, normalise, np_binop.
  destruct (is_first channel_pos); layout; split; reflexivity.
Qed.

(** A vector operand is aligned with the last axis of the array as it
    is stored, and [normalise] has no [channel_pos]: a vector whose
    length is neither that of the last axis nor 1 makes it raise
    [ValueError] (unless the last axis has length 1), as the mean or as
    the standard deviation.  So does a vector of per-channel values on a
    channel-first image whose width differs from its channel count. *)
Theorem normalise_mismatched_vector_raises (img : ndarray F) (v : list F) :
  List.length v <> shape2 img -> List.length v <> 1%nat -> shape2 img <> 1%nat ->
  (forall std : operand F, normalise img (Vector v) std = Raise ValueError) /\
  (forall mean : F, normalise img (Scalar mean) (Vector v) = Raise ValueError).
Proof.
  intros Hl H1 Hs.
  assert (Hb : broadcast_len (shape2 img) (List.length v) = Raise ValueError).
  { unfold broadcast_len.
    destruct (Nat.eqb_spec (shape2 img) (List.length v)); [congruence|].
    destruct (Nat.eqb_spec (List.length v) 1); [contradiction|].
    destruct (Nat.eqb_spec (shape2 img) 1); [contradiction|reflexivity]. }
  unfold normalise, np_binop. split; intros.
  - now rewrite Hb.
  - cbn [bind shape2]. now rewrite Hb.
Qed.

End MoreNormalise.

Lemma normalise_mismatched_vector_raises_witness :
  (List.length [1; 2; 3]%Q <> shape2 (ramp 3 5 4) /\
   List.length [1; 2; 3]%Q <> 1%nat /\ shape2 (ramp 3 5 4) <> 1%nat) /\
  (forall std : operand Q, normalise (ramp 3 5 4) (Vector [1; 2; 3]%Q) std = Raise ValueError) /\
  (forall mean : Q, normalise (ramp 3 5 4) (Scalar mean) (Vector [1; 2; 3]%Q) = Raise ValueError).
Proof.
  assert (Hl : List.length [1; 2; 3]%Q <> shape2 (ramp 3 5 4)) by (cbn; lia).
  assert (H1 : List.length [1; 2; 3]%Q <> 1%nat) by (cbn; lia).
  assert (Hs : shape2 (ramp 3 5 4) <> 1%nat) by (cbn; lia).
  split; [repeat split; assumption|].
  exact (normalise_mismatched_vector_raises (ramp 3 5 4) [1; 2; 3]%Q Hl H1 Hs).
Defined.

(** ** Pipelines *)

Section Pipelines.

Context {F : Type} {num : Number F} {lib : Library F}.

Lemma call_Compose (ts : list (Transforms.transform F)) (img : ndarray F) :
  Transforms.call (Transforms.Compose ts) img = Transforms.apply_all ts img.
Proof.
  revert img. induction ts as [|t ts IH]; intros img; [reflexivity|].
  cbn [Transforms.call Transforms.apply_all] in *.
  destruct (Transforms.call t img) as [x|e]; cbn [bind]; [apply IH|reflexivity].
Qed.

Lemma apply_all_app (ts1 ts2 : list (Transforms.transform F)) (img : ndarray F) :
  Transforms.apply_all (ts1 ++ ts2) img =
  (x <- Transforms.apply_all ts1 img ;; Transforms.apply_all ts2 x).
Proof.
  revert img. induction ts1 as [|t ts1 IH]; intros img; [reflexivity|].
  cbn [app Transforms.apply_all].
  destruct (Transforms.call t img) as [x|e]; cbn [bind]; [apply IH|reflexivity].
Qed.

(** An empty [Compose] returns the image; a [Compose] of two lists put
    end to end runs the first list, then the second on its result; and
    a [Compose] of two [Compose] objects is the [Compose] of their
    lists put end to end. *)
Theorem pipeline_sequencing :
  (forall img : ndarray F, Transforms.call (Transforms.Compose []) img = Ok img)
  /\
  (forall (ts1 ts2 : list (Transforms.transform F)) (img : ndarray F),
     Transforms.call (Transforms.Compose (ts1 ++ ts2)) img =
     (x <- Transforms.call (Transforms.Compose ts1) img ;;
      Transforms.call (Transforms.Compose ts2) x))
  /\
  (forall (ts1 ts2 : list (Transforms.transform F)) (img : ndarray F),
     Transforms.call
       (Transforms.Compose [Transforms.Compose ts1; Transforms.Compose ts2]) img =
     Transforms.call (Transforms.Compose (ts1 ++ ts2)) img).
Proof.
  split; [reflexivity|]. split; intros.
  - rewrite !call_Compose. apply apply_all_app.
  - rewrite (call_Compose [_; _]), (call_Compose (ts1 ++ ts2)), apply_all_app.
    cbn [Transforms.apply_all]. rewrite !call_Compose.
    destruct (Transforms.apply_all ts1 img) as [x|e]; cbn [bind]; [|reflexivity].
    apply bind_ret.
Qed.

(** A pipeline stops at the first transform that raises: the error is
    the error of the pipeline and the transforms after it do not
    matter. *)
Theorem pipeline_stops_at_first_error (ts1 ts2 : list (Transforms.transform F))
    (t : Transforms.transform F) (img x : ndarray F) (e : exn) :
  Transforms.call (Transforms.Compose ts1) img = Ok x ->
  Transforms.call t x = Raise e ->
  Transforms.call (Transforms.Compose (ts1 ++ t :: ts2)) img = Raise e.
Proof.
  intros H1 Ht.
  rewrite call_Compose in *. rewrite apply_all_app, H1.
  cbn [bind Transforms.apply_all]. now rewrite Ht.
Qed.

Lemma rescale_never_returns (img : ndarray F) (scale : pyscale F)
    (interpolation_order : Z) (anti_aliasing : bool) (channel_pos : string) :
  is_ok (rescale img scale interpolation_order anti_aliasing channel_pos) = false.
Proof.
  unfold rescale.
  destruct scale; cbn [py_mul bind np_round is_ok]; try reflexivity.
  - now rewrite resize_array_size_raises.
  - destruct (broadcast_len _ _); cbn [bind np_round]; [|reflexivity].
    now rewrite resize_array_size_raises.
Qed.

(** A [Zoom] object raises [TypeError] on every image, a [Rescale]
    object returns on none, and a [Compose] that holds a transform that
    never returns never returns either: no pipeline that contains a
    [Zoom] or a [Rescale], at any depth, produces an image. *)
Theorem pipelines_with_zoom_or_rescale_never_return :
  (forall (tl : Z * Z) (h w : Z) (cp : string) (interp : Z) (aa : bool) (img : ndarray F),
     Transforms.call (Transforms.Zoom tl h w cp interp aa) img = Raise TypeError)
  /\
  (forall (scale : pyscale F) (interp : Z) (aa : bool) (cp : string) (img : ndarray F),
     is_ok (Transforms.call (Transforms.Rescale scale interp aa cp) img) = false)
  /\
  (forall (ts : list (Transforms.transform F)) (t : Transforms.transform F),
     In t ts ->
     (forall img : ndarray F, is_ok (Transforms.call t img) = false) ->
     forall img : ndarray F, is_ok (Transforms.call (Transforms.Compose ts) img) = false).
Proof.
  split; [reflexivity|]. split.
  - intros. cbn [Transforms.call]. apply rescale_never_returns.
  - intros ts t Hin Ht img. rewrite call_Compose. revert img.
    induction ts as [|t' ts IH]; intros img; [contradiction|].
    cbn [Transforms.apply_all].
    destruct Hin as [-> | Hin].
    + specialize (Ht img). destruct (Transforms.call t img); [discriminate Ht|reflexivity].
    + destruct (Transforms.call t' img) as [x|e]; cbn [bind]; [now apply IH|reflexivity].
Qed.

End Pipelines.

Lemma pipeline_stops_at_first_error_witness :
  (Transforms.call (Transforms.Compose [Transforms.HorizontalFlip "last"]) (ramp 10 10 3) =
     Ok (fliplr (ramp 10 10 3)) /\
   Transforms.call (Transforms.Crop (8, 8) 5 5 "last") (fliplr (ramp 10 10 3)) =
     Raise IndexError) /\
  Transforms.call
    (Transforms.Compose
       ([Transforms.HorizontalFlip "last"] ++
        Transforms.Crop (8, 8) 5 5 "last" :: [Transforms.VerticalFlip "last"]))
    (ramp 10 10 3) = Raise IndexError.
Proof.
  assert (H1 : Transforms.call (Transforms.Compose [Transforms.HorizontalFlip "last"])
                 (ramp 10 10 3) = Ok (fliplr (ramp 10 10 3))) by reflexivity.
  assert (H2 : Transforms.call (Transforms.Crop (8, 8) 5 5 "last") (fliplr (ramp 10 10 3))
               = Raise IndexError) by (vm_compute; reflexivity).
  split; [split; assumption|].
  exact (pipeline_stops_at_first_error [Transforms.HorizontalFlip "last"]
           [Transforms.VerticalFlip "last"] (Transforms.Crop (8, 8) 5 5 "last")
           (ramp 10 10 3) (fliplr (ramp 10 10 3)) IndexError H1 H2).
Defined.

(** ** How the operations compose *)

Section Composing.

Context {F : Type} {num : Number F} {lib : Library F}.

(** Cropping and then flipping is flipping and then cropping the
    mirrored box: for [hflip] the box whose left column is
    [cols - left - width], for [vflip] the box whose top row is
    [rows - top - height]. *)
Theorem flips_commute_with_crop (img : ndarray F) (top left height width : Z)
    (channel_pos : string) :
  0 <= top -> 0 <= left -> 0 <= height -> 0 <= width ->
  top + height <= Z.of_nat (rows channel_pos img) ->
  left + width <= Z.of_nat (cols channel_pos img) ->
  (exists a b,
     (x <- crop img (top, left) height width channel_pos ;; hflip x channel_pos) = Ok a /\
     (x <- hflip img channel_pos ;;
      crop x (top, Z.of_nat (cols channel_pos img) - left - width) height width channel_pos)
       = Ok b /\
     array_equal a b)
  /\
  (exists a b,
     (x <- crop img (top, left) height width channel_pos ;; vflip x channel_pos) = Ok a /\
     (x <- vflip img channel_pos ;;
      crop x (Z.of_nat (rows channel_pos img) - top - height, left) height width channel_pos)
       = Ok b /\
     array_equal a b).
Proof.
  intros Ht Hl Hh Hw Hr Hc.
  rewrite !(crop_passes img (top, left)) by (cbn [fst snd]; lia).
  unfold hflip, vflip, rows, cols, to_canonical, from_canonical in *.
  destruct (is_first channel_pos) eqn:E; layout; cbn [fst snd]; split;
    (rewrite crop_passes;
     unfold rows, cols, to_canonical, from_canonical; rewrite ?E; cbn [fst snd];
     [ | unfold fliplr, flipud; shapes; lia | unfold fliplr, flipud; shapes; lia ]);
    layout; (do 2 eexists; split; [reflexivity|split; [reflexivity|]]);
    unfold array_equal, getitem, fliplr, flipud; shapes;
    rewrite ?(slice_len_inside _ top height), ?(slice_len_inside _ left width),
      ?(slice_start_inside _ top height), ?(slice_start_inside _ left width) by lia;
    match goal with
    | |- context [slice_len ?n (?s, ?s + ?len)] =>
        rewrite (slice_len_inside n s len), (slice_start_inside n s len) by lia
    end;
    repeat split; intros; f_equal; lia.
Qed.

(** A crop that does not meet the erased box does not see it: it is the
    crop of the image as it was. *)
Theorem crop_away_from_erased_box (img : ndarray F) (t1 l1 h1 w1 t2 l2 h2 w2 : Z)
    (val : F) (channel_pos : string) :
  0 <= t1 -> 0 <= l1 -> 0 <= h1 -> 0 <= w1 ->
  0 <= t2 -> 0 <= l2 -> 0 <= h2 -> 0 <= w2 ->
  t2 + h2 <= Z.of_nat (rows channel_pos img) ->
  l2 + w2 <= Z.of_nat (cols channel_pos img) ->
  t1 + h1 <= t2 \/ t2 + h2 <= t1 \/ l1 + w1 <= l2 \/ l2 + w2 <= l1 ->
  exists a b,
    (x <- erase_fresh img (t1, l1) h1 w1 val channel_pos ;;
     crop x (t2, l2) h2 w2 channel_pos) = Ok a /\
    crop img (t2, l2) h2 w2 channel_pos = Ok b /\
    array_equal a b.
Proof.
  intros Ht1 Hl1 Hh1 Hw1 Ht2 Hl2 Hh2 Hw2 Hr Hc Hd.
  rewrite erase_fresh_value.
  rewrite (crop_passes img (t2, l2)) by (cbn [fst snd]; lia).
  unfold rows, cols, to_canonical, from_canonical in *.
  destruct (is_first channel_pos) eqn:E; layout; cbn [fst snd];
    (rewrite crop_passes;
     unfold rows, cols, to_canonical, from_canonical; rewrite ?E; cbn [fst snd];
     [ | unfold setitem; shapes; lia | unfold setitem; shapes; lia ]);
    layout; (do 2 eexists; split; [reflexivity|split; [reflexivity|]]);
    unfold array_equal, getitem, setitem; shapes;
    rewrite !(slice_len_inside _ t2 h2), !(slice_len_inside _ l2 w2),
      !(slice_start_inside _ t2 h2), !(slice_start_inside _ l2 w2) by lia;
    repeat split; intros;
    rewrite !in_slice_nonneg_bool by lia;
    match goal with
    | |- (if ?b then _ else _) = _ => replace b with false; [reflexivity|]
    end;
    symmetry; apply not_true_is_false;
    rewrite !andb_true_iff, !Z.leb_le, !Z.ltb_lt; lia.
Qed.

Lemma bind_cong {A B : Type} (r r' : result A) (f g : A -> result B) :
  r = r' -> (forall a, f a = g a) -> bind r f = bind r' g.
Proof. intros <- H. destruct r; cbn [bind]; auto. Qed.

(** For a box that passes the test of [crop], [zoom] raises none of
    the errors of [resize]'s own: the crop has the channels of the
    image, so the assertion holds, and the size is a tuple of three.
    [zoom] is then the library at work on the crop: the optional
    smoothing, then [warp] asked for the channels-last shape of the
    image, moved back to the layout. *)
Theorem zoom_reaches_warp (img : ndarray F) (tl : Z * Z) (height width : Z)
    (channel_pos : string) (kw : resize_kwargs) :
  fst tl + height <= Z.of_nat (rows channel_pos img) ->
  snd tl + width <= Z.of_nat (cols channel_pos img) ->
  exists (sigma : list F) (tform : matrix F),
    zoom img tl height width channel_pos kw =
    (c <- to_canonical channel_pos img ;;
     let cropped := getitem c (fst tl, fst tl + height) (snd tl, snd tl + width) in
     smooth <- (if default (kw_anti_aliasing kw) false
                then gaussian_filter cropped sigma else Ok cropped) ;;
     out <- warp smooth tform (Some (np_shape c)) (default (kw_interpolation_order kw) 3) ;;
     from_canonical channel_pos out).
Proof.
  intros Hr Hc. unfold zoom.
  unfold rows, cols, to_canonical, from_canonical in *.
  destruct (is_first channel_pos) eqn:E; layout;
    (rewrite crop_passes;
     unfold rows, cols, to_canonical, from_canonical; rewrite ?is_first_last;
     [ | shapes; lia | shapes; lia ]);
    layout; unfold resize, to_canonical, from_canonical; rewrite is_first_last; layout;
    unfold resize_output_shape, getitem_last; cbv zeta;
    cbn [np_shape getitem transpose shape0 shape1 shape2 axis_len nth
         List.length Nat.eqb bind last];
    rewrite Z.eqb_refl; cbn [assert bind];
    do 2 eexists;
    rewrite bind_assoc;
    (apply bind_cong; [reflexivity|intros smooth]);
    rewrite bind_assoc;
    (apply bind_cong; [reflexivity|intros out]);
    reflexivity.
Qed.

(** What [rescale] raises on the scales that can be multiplied with the
    shape: an int repeats the tuple and an array of one or two elements
    multiplies it, and either way [resize] refuses the array that
    [np.round] returns with [UnboundLocalError]; an array of another
    length cannot be broadcast and raises [ValueError]. *)
Theorem rescale_int_and_array_scales (img : ndarray F) (interpolation_order : Z)
    (anti_aliasing : bool) (channel_pos : string) :
  (forall n : Z,
     rescale img (ScaleInt n) interpolation_order anti_aliasing channel_pos =
     Raise UnboundLocalError)
  /\
  (forall x : F,
     rescale img (ScaleArray [x]) interpolation_order anti_aliasing channel_pos =
     Raise UnboundLocalError)
  /\
  (forall x y : F,
     rescale img (ScaleArray [x; y]) interpolation_order anti_aliasing channel_pos =
     Raise UnboundLocalError)
  /\
  (forall v : list F,
     List.length v <> 1%nat -> List.length v <> 2%nat ->
     rescale img (ScaleArray v) interpolation_order anti_aliasing channel_pos =
     Raise ValueError).
Proof.
  unfold rescale. repeat split; intros.
  - cbn [py_mul bind np_round]. apply resize_array_size_raises.
  - destruct (is_first channel_pos); cbn; apply resize_array_size_raises.
  - destruct (is_first channel_pos); cbn; apply resize_array_size_raises.
  - assert (Hb : forall l : list Z, List.length l = 2%nat ->
                   py_mul (ScaleArray v) l = Raise ValueError).
    { intros l Hl. unfold py_mul, broadcast_len. rewrite Hl.
      destruct (Nat.eqb_spec (List.length v) 2); [contradiction|].
      cbn [Nat.eqb].
      destruct (Nat.eqb_spec (List.length v) 1); [contradiction|reflexivity]. }
    destruct (is_first channel_pos); rewrite Hb; reflexivity.
Qed.

End Composing.

Lemma flips_commute_with_crop_witness :
  (0 <= 2 /\ 0 <= 3 /\ 0 <= 4 /\
   2 + 4 <= Z.of_nat (rows "first" (ramp 3 10 10)) /\
   3 + 4 <= Z.of_nat (cols "first" (ramp 3 10 10))) /\
  (exists a b,
     (x <- crop (ramp 3 10 10) (2, 3) 4 4 "first" ;; hflip x "first") = Ok a /\
     (x <- hflip (ramp 3 10 10) "first" ;;
      crop x (2, Z.of_nat (cols "first" (ramp 3 10 10)) - 3 - 4) 4 4 "first") = Ok b /\
     array_equal a b)
  /\
  (exists a b,
     (x <- crop (ramp 3 10 10) (2, 3) 4 4 "first" ;; vflip x "first") = Ok a /\
     (x <- vflip (ramp 3 10 10) "first" ;;
      crop x (Z.of_nat (rows "first" (ramp 3 10 10)) - 2 - 4, 3) 4 4 "first") = Ok b /\
     array_equal a b).
Proof.
  split; [cbn; lia|].
  apply (flips_commute_with_crop (ramp 3 10 10) 2 3 4 4 "first"); cbn; lia.
Defined.

Lemma crop_away_from_erased_box_witness :
  (0 <= 0 /\ 0 <= 2 /\ 0 <= 5 /\ 0 <= 3 /\
   5 + 3 <= Z.of_nat (rows "first" (ramp 3 10 10)) /\
   5 + 3 <= Z.of_nat (cols "first" (ramp 3 10 10)) /\
   (0 + 2 <= 5 \/ 5 + 3 <= 0 \/ 0 + 2 <= 5 \/ 5 + 3 <= 0)) /\
  exists a b,
    (x <- erase_fresh (ramp 3 10 10) (0, 0) 2 2 7%Q "first" ;;
     crop x (5, 5) 3 3 "first") = Ok a /\
    crop (ramp 3 10 10) (5, 5) 3 3 "first" = Ok b /\
    array_equal a b.
Proof.
  split; [cbn; lia|].
  apply (crop_away_from_erased_box (ramp 3 10 10) 0 0 2 2 5 5 3 3 7%Q "first"); cbn; lia.
Defined.

Lemma zoom_reaches_warp_witness :
  (fst (1, 1) + 2 <= Z.of_nat (rows "first" (ramp 3 4 4)) /\
   snd (1, 1) + 2 <= Z.of_nat (cols "first" (ramp 3 4 4))) /\
  exists (sigma : list Q) (tform : matrix Q),
    zoom (ramp 3 4 4) (1, 1) 2 2 "first" no_kwargs =
    (c <- to_canonical "first" (ramp 3 4 4) ;;
     let cropped := getitem c (fst (1, 1), fst (1, 1) + 2) (snd (1, 1), snd (1, 1) + 2) in
     smooth <- (if default (kw_anti_aliasing no_kwargs) false
                then gaussian_filter cropped sigma else Ok cropped) ;;
     out <- warp smooth tform (Some (np_shape c))
              (default (kw_interpolation_order no_kwargs) 3) ;;
     from_canonical "first" out).
Proof.
  assert (H1 : fst (1, 1) + 2 <= Z.of_nat (rows "first" (ramp 3 4 4))) by (cbn; lia).
  assert (H2 : snd (1, 1) + 2 <= Z.of_nat (cols "first" (ramp 3 4 4))) by (cbn; lia).
  split; [split; assumption|].
  exact (zoom_reaches_warp (ramp 3 4 4) (1, 1) 2 2 "first" no_kwargs H1 H2).
Defined.
